(** * PORTES_2025: the dataset loader and the query engine of [main.py]

    A shallow embedding of [load_dataset] and [consultar_portes] and of
    the parts of pandas and of Python's [re] that they call, followed by
    the properties of the query engine.

    Conventions of the model.
    - A Python [str] is a [string] whose characters are Latin-1 code
      points (the file is read with [encoding="latin1"]).
    - A table is a list of column names and a list of rows.  An integer
      column has the dtype int64: its sums wrap around at 2^63.  The
      arithmetic of a float64 column is not modelled: where the loader
      makes TOTAL a float64 column its values are kept as the texts they
      are read from, and an answer that would print a number computed
      from them is outside the model.  Column names are taken to be
      distinct, as the data model of the specification requires; a
      lookup by name reads the first column of that name.
    - Text columns have the object dtype: [astype(str)] turns a missing
      value into the text nan, and [str.contains] runs Python's [re].
    - A call either returns a value, raises a Python exception, or
      leaves what is modelled of regular expressions and of column
      dtypes. *)

From Stdlib Require Import String Ascii List ZArith Lia Bool Permutation Sorted.
From Stdlib Require Import DecimalString DecimalZ DecimalPos.
Import ListNotations.
Open Scope string_scope.
Open Scope Z_scope.

(** ** Outcomes of a call *)

Inductive exn : Type :=
  | FileNotFoundError          (* read_csv: the path does not resolve *)
  | ParserError                (* read_csv: malformed file *)
  | re_error                   (* re.compile: invalid pattern *)
  | ValueError.                (* reset_index: cannot insert, already exists *)

Inductive outcome (A : Type) : Type :=
  | Ok (a : A)
  | Raise (e : exn)
  | OutOfFragment.             (* a pattern or a column dtype that is not modelled *)

Arguments Ok {A} a.
Arguments Raise {A} e.
Arguments OutOfFragment {A}.

Definition bind {A B : Type} (m : outcome A) (k : A -> outcome B) : outcome B :=
  match m with
  | Ok a => k a
  | Raise e => Raise e
  | OutOfFragment => OutOfFragment
  end.

Notation "x <- m ;; k" := (bind m (fun x => k))
  (at level 61, m at next level, right associativity).

(** ** Python strings *)

Module Py.

(** Code point of a character, as [ord]. *)
Definition ord (c : ascii) : nat := nat_of_ascii c.
Definition chr (n : nat) : ascii := ascii_of_nat n.

Definition between (lo hi n : nat) : bool := (Nat.leb lo n && Nat.leb n hi)%bool.

(** [str.upper] on Latin-1: a-z and the accented lower-case letters move
    down by 32, sharp s becomes SS.  The capitals of the micro sign (181)
    and of y-diaeresis (255) are not Latin-1; the model leaves both as
    they are. *)
Definition upper_char (c : ascii) : string :=
  let n := ord c in
  if between 97 122 n then String (chr (n - 32)) EmptyString
  else if Nat.eqb n 223 then "SS"
  else if (between 224 254 n && negb (Nat.eqb n 247))%bool
       then String (chr (n - 32)) EmptyString
  else String c EmptyString.

Fixpoint upper (s : string) : string :=
  match s with
  | EmptyString => EmptyString
  | String c t => upper_char c ++ upper t
  end.

(** [str.isspace] for one Latin-1 character. *)
Definition isspace (c : ascii) : bool :=
  let n := ord c in
  (between 9 13 n || between 28 32 n || Nat.eqb n 133 || Nat.eqb n 160)%bool.

Fixpoint lstrip (s : string) : string :=
  match s with
  | EmptyString => EmptyString
  | String c t => if isspace c then lstrip t else s
  end.

Fixpoint rev_string (s acc : string) : string :=
  match s with
  | EmptyString => acc
  | String c t => rev_string t (String c acc)
  end.

Definition rstrip (s : string) : string :=
  rev_string (lstrip (rev_string s EmptyString)) EmptyString.

Definition strip (s : string) : string := rstrip (lstrip s).

(** [str(n)] for an int. *)
Definition str_int (z : Z) : string := NilZero.string_of_int (Z.to_int z).

(** [int(s)] restricted to an optional sign followed by decimal digits;
    [None] stands for "not a number". *)
Definition isdigit (c : ascii) : bool := between 48 57 (ord c).

Fixpoint digits (s : string) (acc : Z) : option Z :=
  match s with
  | EmptyString => Some acc
  | String c t =>
      if isdigit c then digits t (10 * acc + Z.of_nat (ord c - 48)) else None
  end.

Definition parse_int (s : string) : option Z :=
  match strip s with
  | EmptyString => None
  | String c t =>
      if Ascii.eqb c "-" then
        match t with EmptyString => None | _ => option_map Z.opp (digits t 0) end
      else if Ascii.eqb c "+" then
        match t with EmptyString => None | _ => digits t 0 end
      else digits (String c t) 0
  end.

(** [sep.join(l)]. *)
Definition join (sep : string) (l : list string) : string := String.concat sep l.

(** [sub in s]: [sub] occurs in [s] as a contiguous run of characters. *)
Fixpoint contains (sub s : string) : bool :=
  (String.prefix sub s ||
   match s with
   | EmptyString => false
   | String _ t => contains sub t
   end)%bool.

(** Truthiness of an [Optional[str]] argument: [None] and the empty
    string are falsy. *)
Definition truthy (o : option string) : option string :=
  match o with
  | Some EmptyString => None
  | other => other
  end.

End Py.

(** ** The fragment of Python's [re] used by [Series.str.contains]

    [Series.str.contains(pat)] is called with its defaults, [regex=True]
    and [flags=0]: the pattern is compiled by [re.compile] and a value is
    kept when [re.search] finds a match anywhere in it.  The fragment
    covers literals, [.], escaped punctuation, the postfix operators
    [*], [+], [?] (with the lazy suffix [?]) and top-level alternation;
    groups, classes, counted repeats, anchors and alphanumeric escapes
    are outside it. *)

Module Re.

Inductive regex : Type :=
  | Void                        (* matches nothing *)
  | Eps                         (* the empty string *)
  | Chr (c : ascii)             (* LITERAL *)
  | Dot                         (* ANY: every character but newline *)
  | Cat (r1 r2 : regex)
  | Alt (r1 r2 : regex)
  | Star (r : regex).

(** What precedes the cursor in the current branch, as [sre_parse] needs
    it to accept or refuse a repeat operator. *)
Inductive last_item : Type :=
  | NoItem                      (* start of a branch *)
  | Atom                        (* a literal or [.] *)
  | Repeat                      (* an item just repeated *)
  | LazyRepeat.                 (* a repeat followed by its lazy mark *)

Definition newline : ascii := Py.chr 10.

Definition isalnum_ascii (c : ascii) : bool :=
  let n := Py.ord c in
  (Py.between 48 57 n || Py.between 65 90 n || Py.between 97 122 n)%bool.

Fixpoint cat_all (items : list regex) : regex :=
  match items with
  | [] => Eps
  | r :: rest => Cat r (cat_all rest)
  end.

Fixpoint alt_all (r : regex) (branches : list regex) : regex :=
  match branches with
  | [] => r
  | b :: rest => alt_all (Alt b r) rest
  end.

Definition repeat_of (op : ascii) (r : regex) : regex :=
  if Ascii.eqb op "*" then Star r
  else if Ascii.eqb op "+" then Cat r (Star r)
  else Alt Eps r.

(** [parse s done cur st]: [done] holds the finished branches (last
    first), [cur] the items of the current branch (last first). *)
Fixpoint parse (s : string) (done cur : list regex) (st : last_item)
  : outcome regex :=
  match s with
  | EmptyString => Ok (alt_all (cat_all (rev cur)) done)
  | String c t =>
      if Ascii.eqb c "|" then parse t (cat_all (rev cur) :: done) [] NoItem
      else if Ascii.eqb c ")" then Raise re_error   (* unbalanced parenthesis *)
      else if Ascii.eqb c "\" then
        match t with
        | EmptyString => Raise re_error             (* bad escape (end of pattern) *)
        | String d t' =>
            if isalnum_ascii d then OutOfFragment
            else parse t' done (Chr d :: cur) Atom
        end
      else if (Ascii.eqb c "*" || Ascii.eqb c "+" || Ascii.eqb c "?")%bool then
        match st, cur with
        | Atom, r :: cur' => parse t done (repeat_of c r :: cur') Repeat
        | Repeat, _ =>
            if Ascii.eqb c "?" then parse t done cur LazyRepeat
            else if Ascii.eqb c "+" then OutOfFragment  (* possessive from 3.11 on *)
            else Raise re_error                         (* multiple repeat *)
        | LazyRepeat, _ => Raise re_error               (* multiple repeat *)
        | _, _ => Raise re_error                        (* nothing to repeat *)
        end
      else if Ascii.eqb c "." then parse t done (Dot :: cur) Atom
      else if (Ascii.eqb c "(" || Ascii.eqb c "[" || Ascii.eqb c "{"
               || Ascii.eqb c "^" || Ascii.eqb c "$")%bool then OutOfFragment
      else parse t done (Chr c :: cur) Atom
  end.

(** [re.compile(pat)]. *)
Definition compile (pat : string) : outcome regex := parse pat [] [] NoItem.

Fixpoint nullable (r : regex) : bool :=
  match r with
  | Void | Chr _ | Dot => false
  | Eps | Star _ => true
  | Cat r1 r2 => (nullable r1 && nullable r2)%bool
  | Alt r1 r2 => (nullable r1 || nullable r2)%bool
  end.

(** Brzozowski derivative: what is left of [r] after reading [a]. *)
Fixpoint deriv (a : ascii) (r : regex) : regex :=
  match r with
  | Void | Eps => Void
  | Chr c => if Ascii.eqb a c then Eps else Void
  | Dot => if Ascii.eqb a newline then Void else Eps
  | Cat r1 r2 =>
      if nullable r1 then Alt (Cat (deriv a r1) r2) (deriv a r2)
      else Cat (deriv a r1) r2
  | Alt r1 r2 => Alt (deriv a r1) (deriv a r2)
  | Star r1 => Cat (deriv a r1) (Star r1)
  end.

(** [re.match]: some prefix of [s] is in the language of [r]. *)
Fixpoint match_prefix (r : regex) (s : string) : bool :=
  (nullable r ||
   match s with
   | EmptyString => false
   | String c t => match_prefix (deriv c r) t
   end)%bool.

(** [re.search(...) is not None]: a match starts at some position. *)
Fixpoint search (r : regex) (s : string) : bool :=
  (match_prefix r s ||
   match s with
   | EmptyString => false
   | String _ t => search r t
   end)%bool.


(** A character that [sre_parse] reads as itself. *)
Definition plain_char (c : ascii) : bool :=
  negb (existsb (Ascii.eqb c)
          ["|"; ")"; "\"; "*"; "+"; "?"; "."; "("; "["; "{"; "^"; "$"]%char).

Fixpoint plain (s : string) : bool :=
  match s with
  | EmptyString => true
  | String c t => (plain_char c && plain t)%bool
  end.

Definition lits (s : string) : list regex := map Chr (list_ascii_of_string s).

End Re.

(** ** Tables *)

(** A value of a table: text, an integer, or a missing value. *)
Inductive cell : Type :=
  | CStr (s : string)
  | CInt (z : Z)
  | CNaN.

Record DataFrame : Type := mkFrame {
  columns : list string;         (* df.columns, in file order *)
  rows : list (list cell)        (* one list of values per record *)
}.

Module Pd.

(** [str(v)], the element-wise step of [astype(str)]; a missing value
    becomes the text nan. *)
Definition cell_str (v : cell) : string :=
  match v with
  | CStr s => s
  | CInt z => Py.str_int z
  | CNaN => "nan"
  end.

(** The integer held by a value of an int64 column. *)
Definition cell_num (v : cell) : Z :=
  match v with
  | CInt z => z
  | _ => 0
  end.

Definition has_column (name : string) (f : DataFrame) : bool :=
  existsb (String.eqb name) (columns f).

Fixpoint index_of (name : string) (cols : list string) : option nat :=
  match cols with
  | [] => None
  | c :: rest =>
      if String.eqb name c then Some O else option_map S (index_of name rest)
  end.

(** [row[name]] for a column that exists. *)
Definition get (name : string) (f : DataFrame) (row : list cell) : cell :=
  match index_of name (columns f) with
  | Some i => nth i row CNaN
  | None => CNaN
  end.

(** [frame[mask]]: the rows on which the mask holds, columns unchanged. *)
Definition select (keep : list cell -> bool) (f : DataFrame) : DataFrame :=
  mkFrame (columns f) (filter keep (rows f)).

(** [len(frame)]. *)
Definition len (f : DataFrame) : Z := Z.of_nat (length (rows f)).

(** [frame.empty]: some axis has length 0. *)
Definition empty (f : DataFrame) : bool :=
  match columns f, rows f with
  | [], _ => true
  | _, [] => true
  | _, _ => false
  end.

(** The range of int64 and its arithmetic: a sum that leaves the range
    wraps around, as numpy computes it. *)
Definition int64 (z : Z) : bool := (Z.leb (- 2 ^ 63) z && Z.ltb z (2 ^ 63))%bool.

Definition wrap64 (z : Z) : Z := (z + 2 ^ 63) mod 2 ^ 64 - 2 ^ 63.

Definition add64 (a b : Z) : Z := wrap64 (a + b).

(** A column has the dtype int64 when each of its values is an integer
    of that range; a missing value or a text makes it float64 or object. *)
Definition is_int64 (v : cell) : bool :=
  match v with
  | CInt z => int64 z
  | _ => false
  end.

Definition int64_column (name : string) (f : DataFrame) : bool :=
  forallb (fun row => is_int64 (get name f row)) (rows f).

(** A column of texts and missing values (dtype object). *)
Definition object_column (name : string) (f : DataFrame) : bool :=
  forallb (fun row => match get name f row with CInt _ => false | _ => true end)
          (rows f).

(** [frame[name].sum()] on an int64 column: the values are added one
    after the other in int64. *)
Definition column_sum (name : string) (f : DataFrame) : Z :=
  fold_left (fun acc row => add64 acc (cell_num (get name f row))) (rows f) 0.

Fixpoint update_nth (i : nat) (g : cell -> cell) (row : list cell) : list cell :=
  match row, i with
  | [], _ => []
  | v :: rest, O => g v :: rest
  | v :: rest, S j => v :: update_nth j g rest
  end.

(** [df[name] = g(df[name])] for a column that exists. *)
Definition map_column (name : string) (g : cell -> cell) (f : DataFrame)
  : DataFrame :=
  match index_of name (columns f) with
  | Some i => mkFrame (columns f) (map (update_nth i g) (rows f))
  | None => f
  end.

(** A value of a float64 column, written as the text that
    [pd.to_numeric(..., errors="coerce")] reads it from; [fillna(0)] has
    put 0.0 where the value was missing.  The number itself is not
    computed. *)
Definition as_float (v : cell) : cell :=
  match v with
  | CInt z => CStr (Py.str_int z)
  | CStr s => CStr s
  | CNaN => CStr "0"
  end.

(** [df[name] = pd.to_numeric(df[name], errors="coerce").fillna(0)]: an
    int64 column is left as it is; any other column becomes float64. *)
Definition to_numeric_fillna (name : string) (f : DataFrame) : DataFrame :=
  if int64_column name f then f else map_column name as_float f.

(** Order of group keys ([groupby] sorts them): numbers before text,
    each kind in its own order. *)
Definition key_leb (a b : cell) : bool :=
  match a, b with
  | CInt x, CInt y => Z.leb x y
  | CInt _, _ => true
  | CStr _, CInt _ => false
  | CStr s, CStr t => String.leb s t
  | CStr _, CNaN => true
  | CNaN, CNaN => true
  | CNaN, _ => false
  end.

Definition key_eqb (a b : cell) : bool :=
  match a, b with
  | CInt x, CInt y => Z.eqb x y
  | CStr s, CStr t => String.eqb s t
  | CNaN, CNaN => true
  | _, _ => false
  end.

(** The running totals of the groups, one entry per distinct key, in
    the order in which the keys are first seen: [acumular] adds the value
    [v] of one row to the group of its key [k], in int64, each group
    starting from 0. *)
Fixpoint acumular (k : cell) (v : Z) (groups : list (cell * Z))
  : list (cell * Z) :=
  match groups with
  | [] => [(k, add64 0 v)]
  | (k', t) :: rest =>
      if key_eqb k k' then (k', add64 t v) :: rest
      else (k', t) :: acumular k v rest
  end.

Fixpoint insert_key (x : cell * Z) (l : list (cell * Z)) : list (cell * Z) :=
  match l with
  | [] => [x]
  | y :: rest =>
      if key_leb (fst x) (fst y) then x :: y :: rest
      else y :: insert_key x rest
  end.

(** The groups in ascending key order ([sort=True]). *)
Definition sort_keys (l : list (cell * Z)) : list (cell * Z) :=
  fold_right insert_key [] l.

(** [frame.groupby(col)] followed by a sum: rows whose key is missing
    are dropped ([dropna=True]); [weight] is what a row contributes to
    its group. *)
Definition step (col : string) (weight : list cell -> Z) (f : DataFrame)
  (groups : list (cell * Z)) (row : list cell) : list (cell * Z) :=
  match get col f row with
  | CNaN => groups
  | k => acumular k (weight row) groups
  end.

Definition groupby (col : string) (weight : list cell -> Z) (f : DataFrame)
  : list (cell * Z) :=
  sort_keys (fold_left (step col weight f) (rows f) []).

(** [sort_values("TOTAL", ascending=False)].  Rows with equal totals keep
    their relative order here; numpy leaves that order open. *)
Fixpoint insert_desc (x : cell * Z) (l : list (cell * Z)) : list (cell * Z) :=
  match l with
  | [] => [x]
  | y :: rest =>
      if Z.leb (snd y) (snd x) then x :: y :: rest
      else y :: insert_desc x rest
  end.

Definition sort_values_desc (l : list (cell * Z)) : list (cell * Z) :=
  fold_right insert_desc [] l.

(** [tabela.head(n)]: the first [n] rows, or for a negative [n] all but
    the last [-n]. *)
Definition head {A : Type} (n : Z) (l : list A) : list A :=
  if Z.leb 0 n then firstn (Z.to_nat n) l
  else firstn (length l - Z.to_nat (- n)) l.

End Pd.

(** ** Process state and the dataset loader *)

(** The module-level state of [main.py] together with what the loader
    can observe of the file system: [disk] is what [pd.read_csv(path,
    encoding="latin1", sep=";")] gives for each path, [reads] records
    every call of [read_csv], most recent first. *)
Record World : Type := mkWorld {
  PORTES_DF : option DataFrame;
  disk : string -> exn + DataFrame;
  reads : list string
}.

(** Code that reads and writes the process state and may raise. *)
Definition M (A : Type) : Type := World -> outcome A * World.

Definition ret {A : Type} (a : A) : M A := fun w => (Ok a, w).

Definition bindM {A B : Type} (m : M A) (k : A -> M B) : M B :=
  fun w =>
    match m w with
    | (Ok a, w1) => k a w1
    | (Raise e, w1) => (Raise e, w1)
    | (OutOfFragment, w1) => (OutOfFragment, w1)
    end.

Notation "x <~ m ;; k" := (bindM m (fun x => k))
  (at level 61, m at next level, right associativity).

Definition lift {A : Type} (o : outcome A) : M A := fun w => (o, w).

Definition get_PORTES_DF : M (option DataFrame) := fun w => (Ok (PORTES_DF w), w).

Definition set_PORTES_DF (df : DataFrame) : M unit :=
  fun w => (Ok tt, mkWorld (Some df) (disk w) (reads w)).

Definition DATA_PATH : string := "PORTES_2025.csv".

Definition read_csv (path : string) : M DataFrame :=
  fun w =>
    (match disk w path with inl e => Raise e | inr df => Ok df end,
     mkWorld (PORTES_DF w) (disk w) (path :: reads w)).

(** The treatment of a freshly read table: lines 28 to 31. *)
Definition normalize (df : DataFrame) : DataFrame :=
  let df := mkFrame (map (fun c => Py.upper (Py.strip c)) (columns df)) (rows df) in
  if Pd.has_column "TOTAL" df
  then Pd.to_numeric_fillna "TOTAL" df
  else df.

Definition load_dataset (path : string) : M DataFrame :=
  cache <~ get_PORTES_DF ;;
  match cache with
  | None =>
      df <~ read_csv path ;;
      let df := normalize df in
      _ <~ set_PORTES_DF df ;;
      ret df
  | Some df => ret df
  end.

(** ** The query engine *)

(** The arguments of [consultar_portes]. *)
Record consulta : Type := mkConsulta {
  uf : option string;
  municipio : option string;
  sexo : option string;
  especie_arma : option string;
  marca_arma : option string;
  calibre_arma : option string;
  status : option string;
  tipo : option string;
  abrangencia : option string;
  ano_emissao : option Z;
  mes_missao : option Z;
  agrupar_por : option string;
  top_n : option Z
}.

(** The defaults of the signature: every filter absent, [top_n = 5]. *)
Definition consulta_padrao : consulta :=
  mkConsulta None None None None None None None None None None None None (Some 5).

(** [Series.str.contains(pat, na=False)] on a column of strings: the
    pattern is compiled once, whatever the rows are. *)
Definition str_contains (pat : string) : outcome (string -> bool) :=
  r <- Re.compile pat ;;
  Ok (Re.search r).

Definition filtrar_coluna_texto (frame : DataFrame) (coluna valor : string)
  : outcome DataFrame :=
  let coluna := Py.upper coluna in
  if negb (Pd.has_column coluna frame) then Ok frame
  else
    m <- str_contains (Py.upper valor) ;;
    Ok (Pd.select
          (fun row => m (Py.upper (Pd.cell_str (Pd.get coluna frame row))))
          frame).

(** [frame[frame[coluna] == n]]. *)
Definition filtrar_igual (frame : DataFrame) (coluna : string) (n : Z) : DataFrame :=
  Pd.select
    (fun row => match Pd.get coluna frame row with
                | CInt z => Z.eqb z n
                | _ => false
                end)
    frame.

(** [if valor: filtro = filtrar_coluna_texto(filtro, coluna, valor)]. *)
Definition se_texto (valor : option string) (coluna : string) (filtro : DataFrame)
  : outcome DataFrame :=
  match Py.truthy valor with
  | Some v => filtrar_coluna_texto filtro coluna v
  | None => Ok filtro
  end.

(** [if valor is not None and coluna in filtro.columns: ...]. *)
Definition se_igual (valor : option Z) (coluna : string) (filtro : DataFrame)
  : DataFrame :=
  match valor with
  | Some n => if Pd.has_column coluna filtro then filtrar_igual filtro coluna n
              else filtro
  | None => filtro
  end.

(** Lines 82 to 122: the working set. *)
Definition filtrar (q : consulta) (df : DataFrame) : outcome DataFrame :=
  filtro <- se_texto (uf q) "UF" df ;;
  filtro <- se_texto (municipio q) "MUNICIPIO" filtro ;;
  filtro <- se_texto (sexo q) "SEXO" filtro ;;
  filtro <- se_texto (especie_arma q) "ESPECIE_ARMA" filtro ;;
  filtro <- se_texto (marca_arma q) "MARCA_ARMA" filtro ;;
  filtro <- se_texto (calibre_arma q) "CALIBRE_ARMA" filtro ;;
  filtro <- se_texto (status q) "STATUS" filtro ;;
  filtro <- se_texto (tipo q) "TIPO" filtro ;;
  filtro <- se_texto (abrangencia q) "ABRANGENCIA" filtro ;;
  let filtro := se_igual (ano_emissao q) "ANO_EMISSAO" filtro in
  let filtro := se_igual (mes_missao q) "MES_MISSAO" filtro in
  Ok filtro.

Definition nl : string := String (Py.chr 10) EmptyString.
Definition a_tilde : string := String (Py.chr 227) EmptyString.
Definition i_acute : string := String (Py.chr 237) EmptyString.

Definition msg_nenhum : string := "Nenhum registro encontrado com esses filtros.".

(** The sentence that opens the summary and the ranking. *)
Definition msg_total (total_portes : Z) : string :=
  "Foram encontrados " ++ Py.str_int total_portes ++
  " portes de arma com os filtros informados." ++ nl.

Definition msg_resumo (total_portes registros : Z) : string :=
  msg_total total_portes ++ "(Registros: " ++ Py.str_int registros ++ ")".

Definition msg_coluna (agrupar_por : string) (colunas : list string) : string :=
  "A coluna '" ++ agrupar_por ++ "' n" ++ a_tilde ++ "o existe no dataset." ++ nl ++
  "Colunas dispon" ++ i_acute ++ "veis: " ++ Py.join ", " colunas.

(** Lines 127 to 130. *)
Definition total_de (filtro : DataFrame) : Z :=
  if Pd.has_column "TOTAL" filtro then Pd.column_sum "TOTAL" filtro
  else Pd.len filtro.

(** The totals can be printed: there is no TOTAL column, or it is int64. *)
Definition total_int64 (filtro : DataFrame) : bool :=
  (negb (Pd.has_column "TOTAL" filtro) || Pd.int64_column "TOTAL" filtro)%bool.

(** The keys of a grouping column can be printed: they are all int64, or
    all texts and missing values. *)
Definition chave_uniforme (col : string) (filtro : DataFrame) : bool :=
  (Pd.int64_column col filtro || Pd.object_column col filtro)%bool.

(** Lines 146 to 159: the table of groups, largest total first.
    [reset_index] refuses to insert the index as a column when a column
    of that name is already there, which happens when the totals are
    grouped by TOTAL itself.  The sums are those of an int64 TOTAL. *)
Definition agrupar (col : string) (filtro : DataFrame) : outcome (list (cell * Z)) :=
  if Pd.has_column "TOTAL" filtro then
    if String.eqb col "TOTAL" then Raise ValueError
    else if (total_int64 filtro && chave_uniforme col filtro)%bool
    then Ok (Pd.sort_values_desc
               (Pd.groupby col (fun row => Pd.cell_num (Pd.get "TOTAL" filtro row)) filtro))
    else OutOfFragment
  else if chave_uniforme col filtro
       then Ok (Pd.sort_values_desc (Pd.groupby col (fun _ => 1) filtro))
       else OutOfFragment.

(** Lines 161 and 162. *)
Definition limitar (top_n : option Z) (tabela : list (cell * Z)) : list (cell * Z) :=
  match top_n with
  | Some n => Pd.head n tabela
  | None => tabela
  end.

(** Line 168. *)
Definition linha (g : cell * Z) : string :=
  "- " ++ Pd.cell_str (fst g) ++ ": " ++ Py.str_int (snd g) ++ " portes".

Definition msg_ranking (total_portes : Z) (col : string) (tabela : list (cell * Z))
  : string :=
  msg_total total_portes ++
  "Ranking por " ++ col ++ " (top " ++ Py.str_int (Z.of_nat (length tabela)) ++ "):" ++ nl ++
  Py.join nl (map linha tabela).

(** Lines 124 to 176: the answer built from the working set. *)
Definition responder (q : consulta) (filtro : DataFrame) : outcome string :=
  if Pd.empty filtro then Ok msg_nenhum
  else
    let total_portes := total_de filtro in
    match Py.truthy (agrupar_por q) with
    | None =>
        if total_int64 filtro then Ok (msg_resumo total_portes (Pd.len filtro))
        else OutOfFragment
    | Some g =>
        let col := Py.upper g in
        if negb (Pd.has_column col filtro) then Ok (msg_coluna g (columns filtro))
        else
          tabela <- agrupar col filtro ;;
          Ok (msg_ranking total_portes col (limitar (top_n q) tabela))
    end.

(** The body of [consultar_portes] once the table is loaded. *)
Definition consultar (df : DataFrame) (q : consulta) : outcome string :=
  filtro <- filtrar q df ;;
  responder q filtro.

Definition consultar_portes (q : consulta) : M string :=
  df <~ load_dataset DATA_PATH ;;
  lift (consultar df q).

(** ** The filter stage as a list of criteria

    A second reading of lines 91 to 122, used to speak of the order in
    which the criteria are applied. *)

Inductive criterio : Type :=
  | Texto (coluna valor : string)      (* a textual criterion *)
  | Igual (coluna : string) (n : Z).   (* year or month *)

Definition aplicar (c : criterio) (filtro : DataFrame) : outcome DataFrame :=
  match c with
  | Texto coluna valor => filtrar_coluna_texto filtro coluna valor
  | Igual coluna n =>
      Ok (if Pd.has_column coluna filtro then filtrar_igual filtro coluna n
          else filtro)
  end.

Fixpoint aplicar_todos (l : list criterio) (filtro : DataFrame) : outcome DataFrame :=
  match l with
  | [] => Ok filtro
  | c :: rest => filtro <- aplicar c filtro ;; aplicar_todos rest filtro
  end.

Definition texto (valor : option string) (coluna : string) : list criterio :=
  match Py.truthy valor with
  | Some v => [Texto coluna v]
  | None => []
  end.

Definition igual (valor : option Z) (coluna : string) : list criterio :=
  match valor with
  | Some n => [Igual coluna n]
  | None => []
  end.

(** The criteria a call supplies, in the order of the source. *)
Definition criterios (q : consulta) : list criterio :=
  texto (uf q) "UF" ++ texto (municipio q) "MUNICIPIO" ++ texto (sexo q) "SEXO" ++
  texto (especie_arma q) "ESPECIE_ARMA" ++ texto (marca_arma q) "MARCA_ARMA" ++
  texto (calibre_arma q) "CALIBRE_ARMA" ++ texto (status q) "STATUS" ++
  texto (tipo q) "TIPO" ++ texto (abrangencia q) "ABRANGENCIA" ++
  igual (ano_emissao q) "ANO_EMISSAO" ++ igual (mes_missao q) "MES_MISSAO".

(** The nine textual parameters. *)
Inductive campo : Type :=
  | Uf | Municipio | Sexo | EspecieArma | MarcaArma | CalibreArma
  | Status | Tipo | Abrangencia.

Definition coluna_de (c : campo) : string :=
  match c with
  | Uf => "UF" | Municipio => "MUNICIPIO" | Sexo => "SEXO"
  | EspecieArma => "ESPECIE_ARMA" | MarcaArma => "MARCA_ARMA"
  | CalibreArma => "CALIBRE_ARMA" | Status => "STATUS" | Tipo => "TIPO"
  | Abrangencia => "ABRANGENCIA"
  end.

Definition valor_de (c : campo) (q : consulta) : option string :=
  match c with
  | Uf => uf q | Municipio => municipio q | Sexo => sexo q
  | EspecieArma => especie_arma q | MarcaArma => marca_arma q
  | CalibreArma => calibre_arma q | Status => status q | Tipo => tipo q
  | Abrangencia => abrangencia q
  end.

(** The call [q] with the textual parameter [c] passed as [v]. *)
Definition com_campo (c : campo) (v : option string) (q : consulta) : consulta :=
  mkConsulta
    (match c with Uf => v | _ => uf q end)
    (match c with Municipio => v | _ => municipio q end)
    (match c with Sexo => v | _ => sexo q end)
    (match c with EspecieArma => v | _ => especie_arma q end)
    (match c with MarcaArma => v | _ => marca_arma q end)
    (match c with CalibreArma => v | _ => calibre_arma q end)
    (match c with Status => v | _ => status q end)
    (match c with Tipo => v | _ => tipo q end)
    (match c with Abrangencia => v | _ => abrangencia q end)
    (ano_emissao q) (mes_missao q) (agrupar_por q) (top_n q).

Definition com_grupo (g : option string) (n : option Z) (q : consulta) : consulta :=
  mkConsulta (uf q) (municipio q) (sexo q) (especie_arma q) (marca_arma q)
    (calibre_arma q) (status q) (tipo q) (abrangencia q)
    (ano_emissao q) (mes_missao q) g n.

(** Two runs agree: both return the same value, or neither returns. *)
Definition mesmo_resultado {A : Type} (a b : outcome A) : Prop :=
  match a, b with
  | Ok x, Ok y => x = y
  | Ok _, _ | _, Ok _ => False
  | _, _ => True
  end.

(** ** The tables of the scenarios *)

(** Scenario A of the specification. *)
Definition tabela_A : DataFrame :=
  mkFrame ["UF"; "TOTAL"]
    [ [CStr "BA"; CInt 10]; [CStr "BA"; CInt 5]; [CStr "SP"; CInt 7] ].

(** The same file as [read_csv] delivers it, header untouched. *)
Definition arquivo_A : DataFrame :=
  mkFrame [" uf"; "Total "]
    [ [CStr "BA"; CInt 10]; [CStr "BA"; CInt 5]; [CStr "SP"; CInt 7] ].

Definition mundo_A : World :=
  mkWorld None
    (fun path => if String.eqb path DATA_PATH then inr arquivo_A
                 else inl FileNotFoundError)
    [].

(** A table with more columns. *)
Definition tabela_B : DataFrame :=
  mkFrame ["UF"; "SEXO"; "ANO_EMISSAO"; "TOTAL"]
    [ [CStr "BA"; CStr "M"; CInt 2025; CInt 10];
      [CStr "BA"; CStr "F"; CInt 2025; CInt 5];
      [CStr "SP"; CStr "M"; CInt 2024; CInt 7];
      [CStr "RJ"; CStr "M"; CInt 2025; CInt 7] ].


(** A table of calibers. *)
Definition tabela_calibres : DataFrame :=
  mkFrame ["CALIBRE_ARMA"; "TOTAL"]
    [ [CStr ".380 ACP"; CInt 4]; [CStr "9380 mag"; CInt 2];
      [CStr ".38 SPL+P"; CInt 3] ].

(** ** The interactive loop of [main]

    [main] loads the dataset, checks the credential, builds the agent
    and answers the lines typed by the user until an exit word.  The
    agent of [criar_agente] is a third-party language-model client: it is
    a parameter here, a function from a question and the process state to
    what it wrote, the message of the exception it raised if any, and
    the process state it left (it may call [consultar_portes]).  Standard
    input is the list of the lines still to be read; reading past its end
    raises [EOFError]. *)

Module Chat.

(** [str.lower] on Latin-1: A-Z and the accented capitals move up by 32. *)
Definition lower_char (c : ascii) : ascii :=
  let n := Py.ord c in
  if Py.between 65 90 n then Py.chr (n + 32)
  else if (Py.between 192 222 n && negb (Nat.eqb n 215))%bool then Py.chr (n + 32)
  else c.

Fixpoint lower (s : string) : string :=
  match s with
  | EmptyString => EmptyString
  | String c t => String (lower_char c) (lower t)
  end.

(** What the process writes to standard output, in order. *)
Inductive evento : Type :=
  | Print (s : string)          (* print(s) *)
  | Prompt (s : string)         (* the prompt of input(s) *)
  | Resposta (s : string).      (* the output of agent.print_response *)

Definition Agent : Type := string -> World -> (string * option string) * World.

(** How [main] ends. *)
Inductive termino : Type :=
  | Retornou                    (* return, or break out of the loop *)
  | Levantou (e : exn)          (* an exception of the loader, not caught *)
  | LevantouEOF                 (* EOFError of input() *)
  | ForaDoModelo.

Definition e_acute : string := String (Py.chr 233) EmptyString.
Definition e_circ : string := String (Py.chr 234) EmptyString.
Definition c_cedil : string := String (Py.chr 231) EmptyString.
Definition o_acute : string := String (Py.chr 243) EmptyString.
Definition a_acute : string := String (Py.chr 225) EmptyString.

Definition prompt : string := "Voc" ++ e_circ ++ ": ".
Definition msg_adeus : string := "Chatbot: At" ++ e_acute ++ " mais!".
Definition msg_erro_agente (e : string) : string := "[ERRO AO CHAMAR O AGENTE] " ++ e.

Definition msg_arquivo : string :=
  "Erro: n" ++ a_tilde ++ "o encontrei o arquivo " ++ DATA_PATH ++
  ". Verifique o caminho no c" ++ o_acute ++ "digo.".

Definition msgs_chave : list evento :=
  [ Print ("Erro: vari" ++ a_acute ++ "vel de ambiente GOOGLE_API_KEY n" ++
           a_tilde ++ "o definida.");
    Print ("Crie um arquivo .env com GOOGLE_API_KEY=... ou exporte a vari" ++
           a_acute ++ "vel.") ].

Definition banner : list evento :=
  [ Print "=== Chatbot de Portes de Armas de Fogo (PORTES_2025) ===";
    Print ("Fa" ++ c_cedil ++ "a perguntas sobre dados o porte de Armas de Fogo no ano de 2025.");
    Print ("Digite 'sair' para encerrar." ++ nl) ].

(** [pergunta.lower() in {"sair", "exit", "quit"}]. *)
Definition palavra_de_saida (pergunta : string) : bool :=
  let p := lower pergunta in
  (String.eqb p "sair" || String.eqb p "exit" || String.eqb p "quit")%bool.

(** Lines 228 to 232: one question put to the agent. *)
Definition perguntar (agente : Agent) (pergunta : string) (w : World)
  : list evento * World :=
  match agente pergunta w with
  | ((saida, None), w1) => ([Resposta saida; Print ""], w1)
  | ((saida, Some e), w1) => ([Resposta saida; Print (msg_erro_agente e)], w1)
  end.

(** Lines 220 to 232: the loop, one turn for each line read. *)
Fixpoint repl (agente : Agent) (entrada : list string) (w : World)
  : (list evento * World) * termino :=
  match entrada with
  | [] => (([Prompt prompt], w), LevantouEOF)
  | linha :: resto =>
      let pergunta := Py.strip linha in
      match pergunta with
      | EmptyString =>
          let '((saida, w1), fim) := repl agente resto w in
          ((Prompt prompt :: saida, w1), fim)
      | _ =>
          if palavra_de_saida pergunta
          then (([Prompt prompt; Print msg_adeus], w), Retornou)
          else
            let '(eventos, w1) := perguntar agente pergunta w in
            let '((saida, w2), fim) := repl agente resto w1 in
            ((Prompt prompt :: (eventos ++ saida)%list, w2), fim)
      end
  end.

(** [main]: [env] is [os.getenv], [agente] what [criar_agente] returns. *)
Definition main (env : string -> option string) (agente : Agent)
  (entrada : list string) (w : World) : (list evento * World) * termino :=
  match load_dataset DATA_PATH w with
  | (Raise FileNotFoundError, w1) => (([Print msg_arquivo], w1), Retornou)
  | (Raise e, w1) => (([], w1), Levantou e)
  | (OutOfFragment, w1) => (([], w1), ForaDoModelo)
  | (Ok _, w1) =>
      match Py.truthy (env "GOOGLE_API_KEY") with
      | None => ((msgs_chave, w1), Retornou)
      | Some _ =>
          let '((saida, w2), fim) := repl agente entrada w1 in
          (((banner ++ saida)%list, w2), fim)
      end
  end.

(** The questions a session puts to the agent: the stripped lines that
    are not blank, up to the first exit word. *)
Fixpoint perguntas (entrada : list string) : list string :=
  match entrada with
  | [] => []
  | linha :: resto =>
      match Py.strip linha with
      | EmptyString => perguntas resto
      | p => if palavra_de_saida p then [] else p :: perguntas resto
      end
  end.

(** Whether some line of the input ends the session. *)
Fixpoint tem_saida (entrada : list string) : bool :=
  match entrada with
  | [] => false
  | linha :: resto =>
      match Py.strip linha with
      | EmptyString => tem_saida resto
      | p => (palavra_de_saida p || tem_saida resto)%bool
      end
  end.

(** The number of lines a session reads. *)
Fixpoint linhas_lidas (entrada : list string) : nat :=
  match entrada with
  | [] => O
  | linha :: resto =>
      match Py.strip linha with
      | EmptyString => S (linhas_lidas resto)
      | p => if palavra_de_saida p then 1%nat else S (linhas_lidas resto)
      end
  end.

End Chat.

(** The call [q] with the year passed as [v]. *)
Definition com_ano (v : option Z) (q : consulta) : consulta :=
  mkConsulta (uf q) (municipio q) (sexo q) (especie_arma q) (marca_arma q)
    (calibre_arma q) (status q) (tipo q) (abrangencia q)
    v (mes_missao q) (agrupar_por q) (top_n q).

(** The call [q] with the month passed as [v]. *)
Definition com_mes (v : option Z) (q : consulta) : consulta :=
  mkConsulta (uf q) (municipio q) (sexo q) (especie_arma q) (marca_arma q)
    (calibre_arma q) (status q) (tipo q) (abrangencia q)
    (ano_emissao q) v (agrupar_por q) (top_n q).

(** ** Notions used in the statements *)

(** What a criterion tests on a row, given the columns of the table: it
    does not depend on the rows, and compiling the pattern is the only
    step that can fail. *)
Definition teste (cols : list string) (c : criterio) : outcome (list cell -> bool) :=
  let f := mkFrame cols [] in
  match c with
  | Texto coluna valor =>
      if negb (Pd.has_column (Py.upper coluna) f) then Ok (fun _ => true)
      else
        m <- str_contains (Py.upper valor) ;;
        Ok (fun row => m (Py.upper (Pd.cell_str (Pd.get (Py.upper coluna) f row))))
  | Igual coluna n =>
      Ok (if Pd.has_column coluna f
          then (fun row => match Pd.get coluna f row with
                           | CInt z => Z.eqb z n
                           | _ => false
                           end)
          else (fun _ => true))
  end.

(** Larger total first. *)
Definition desc (a b : cell * Z) : Prop := snd b <= snd a.

(** The state of [mundo_A] after its first load. *)
Definition mundo_A_carregado : World :=
  mkWorld (Some tabela_A) (disk mundo_A) [DATA_PATH].

(** Among the rows [rs] of a table, those whose key in column [col] is
    [k], and what they add up to in int64. *)
Definition rows_of_key (col : string) (f : DataFrame) (k : cell)
  (rs : list (list cell)) : list (list cell) :=
  filter (fun row => Pd.key_eqb (Pd.get col f row) k) rs.

Definition sum_of_key (col : string) (weight : list cell -> Z) (f : DataFrame)
  (k : cell) (rs : list (list cell)) : Z :=
  Pd.wrap64 (fold_right Z.add 0 (map weight (rows_of_key col f k rs))).

(** What a row adds to its group in [consultar_portes]: its TOTAL when
    the column exists, one otherwise. *)
Definition peso (filtro : DataFrame) (row : list cell) : Z :=
  if Pd.has_column "TOTAL" filtro then Pd.cell_num (Pd.get "TOTAL" filtro row)
  else 1.

(** The total recorded for a key in a table of groups, if the key has a
    group. *)
Fixpoint lookup (k : cell) (groups : list (cell * Z)) : option Z :=
  match groups with
  | [] => None
  | (k', t) :: rest => if Pd.key_eqb k k' then Some t else lookup k rest
  end.

Definition or_zero (o : option Z) : Z := match o with Some t => t | None => 0 end.

(** The test of a list of criteria on a row: the tests of all of them,
    compiled in the order of the list. *)
Fixpoint testes (cols : list string) (l : list criterio)
  : outcome (list cell -> bool) :=
  match l with
  | [] => Ok (fun _ => true)
  | c :: rest =>
      p <- teste cols c ;;
      r <- testes cols rest ;;
      Ok (fun row => (p row && r row)%bool)
  end.



(** The totals of a table of groups, added up. *)
Definition soma_totais (tabela : list (cell * Z)) : Z :=
  fold_right Z.add 0 (map snd tabela).

(** The rows whose value in column [col] is not missing. *)
Definition com_chave (col : string) (f : DataFrame) (rs : list (list cell))
  : list (list cell) :=
  filter (fun row => negb (Pd.key_eqb (Pd.get col f row) CNaN)) rs.

(** The process state after the agent has answered the questions [ps]
    one after the other, and what it wrote for each. *)
Definition estado_final (agente : Chat.Agent) (ps : list string) (w : World) : World :=
  fold_left (fun w p => snd (agente p w)) ps w.

Fixpoint respostas (agente : Chat.Agent) (ps : list string) (w : World)
  : list string :=
  match ps with
  | [] => []
  | p :: resto => fst (fst (agente p w)) :: respostas agente resto (snd (agente p w))
  end.

(** The prompts and the agent's outputs among the events of a session. *)
Definition n_prompts (evs : list Chat.evento) : nat :=
  length (filter (fun e => match e with Chat.Prompt _ => true | _ => false end) evs).

Definition saidas_do_agente (evs : list Chat.evento) : list string :=
  flat_map (fun e => match e with Chat.Resposta s => [s] | _ => [] end) evs.

(** An agent for the examples: it reads the question as a state code
    and answers with what [consultar_portes] returns, or raises. *)
Definition agente_uf : Chat.Agent :=
  fun pergunta w =>
    match consultar_portes (com_campo Uf (Some pergunta) consulta_padrao) w with
    | (Ok texto, w1) => ((texto, None), w1)
    | (_, w1) => (("", Some "falha na consulta"), w1)
    end.

Definition env_com_chave (nome : string) : option string :=
  if String.eqb nome "GOOGLE_API_KEY" then Some "chave" else None.

Definition env_vazio (nome : string) : option string := None.

(** * Properties *)

(** ** The filter stage *)

Section FilterStage.

Lemma bind_Ok_inv {A B : Type} (m : outcome A) (k : A -> outcome B) (b : B) :
  (x <- m ;; k x) = Ok b -> exists a, m = Ok a /\ k a = Ok b.
Proof.
  destruct m as [a | e |]; simpl; intros H; try discriminate.
  exists a; split; [reflexivity | exact H].
Qed.

Lemma has_column_select name keep f :
  Pd.has_column name (Pd.select keep f) = Pd.has_column name f.
Proof. reflexivity. Qed.

Lemma filter_all {A : Type} (l : list A) : filter (fun _ => true) l = l.
Proof. induction l as [| x l IH]; simpl; [reflexivity | now rewrite IH]. Qed.

Lemma select_all f : Pd.select (fun _ => true) f = f.
Proof. destruct f as [cols rs]; unfold Pd.select; simpl. now rewrite filter_all. Qed.

(** Every criterion is a selection of rows by a test fixed by the
    columns. *)
Lemma aplicar_teste c f :
  aplicar c f = (p <- teste (columns f) c ;; Ok (Pd.select p f)).
Proof.
  destruct c as [coluna valor | coluna n]; simpl.
  - unfold filtrar_coluna_texto, teste, Pd.has_column, Pd.get; simpl.
    destruct (existsb (String.eqb (Py.upper coluna)) (columns f)); simpl.
    + destruct (str_contains (Py.upper valor)); reflexivity.
    + now rewrite select_all.
  - unfold Pd.has_column, filtrar_igual, Pd.get; simpl.
    destruct (existsb (String.eqb coluna) (columns f)); simpl.
    + reflexivity.
    + now rewrite select_all.
Qed.

Lemma aplicar_columns c f f' : aplicar c f = Ok f' -> columns f' = columns f.
Proof.
  rewrite aplicar_teste. intros H.
  apply bind_Ok_inv in H. destruct H as [p [_ H]].
  injection H as <-. reflexivity.
Qed.

Lemma aplicar_todos_columns l :
  forall f f', aplicar_todos l f = Ok f' -> columns f' = columns f.
Proof.
  induction l as [| c l IH]; simpl; intros f f' H.
  - now injection H as <-.
  - apply bind_Ok_inv in H. destruct H as [f1 [H1 H2]].
    rewrite (IH _ _ H2). exact (aplicar_columns _ _ _ H1).
Qed.

Lemma aplicar_todos_app l1 l2 f :
  aplicar_todos (l1 ++ l2) f = (f1 <- aplicar_todos l1 f ;; aplicar_todos l2 f1).
Proof.
  revert f. induction l1 as [| c l1 IH]; simpl; intros f.
  - reflexivity.
  - destruct (aplicar c f) as [f1 | e |]; simpl; [apply IH | reflexivity | reflexivity].
Qed.

Lemma se_texto_aplicar v coluna f :
  se_texto v coluna f = aplicar_todos (texto v coluna) f.
Proof.
  unfold se_texto, texto. destruct (Py.truthy v) as [s |]; simpl.
  - destruct (filtrar_coluna_texto f coluna s); reflexivity.
  - reflexivity.
Qed.

Lemma se_igual_aplicar v coluna f :
  Ok (se_igual v coluna f) = aplicar_todos (igual v coluna) f.
Proof. unfold se_igual, igual. destruct v as [n |]; reflexivity. Qed.

Lemma bind_ext {A B : Type} (m : outcome A) (k1 k2 : A -> outcome B) :
  (forall a, k1 a = k2 a) -> (x <- m ;; k1 x) = (x <- m ;; k2 x).
Proof. intros H. destruct m; simpl; [apply H | reflexivity | reflexivity]. Qed.

(** The sequence of [if] statements of the source applies the supplied
    criteria one after the other. *)
Lemma filtrar_criterios q df : filtrar q df = aplicar_todos (criterios q) df.
Proof.
  unfold filtrar, criterios.
  repeat (rewrite aplicar_todos_app; rewrite <- se_texto_aplicar;
          apply bind_ext; intros ?).
  rewrite aplicar_todos_app, <- se_igual_aplicar. simpl.
  now rewrite <- se_igual_aplicar.
Qed.

Lemma filtrar_columns q df ws : filtrar q df = Ok ws -> columns ws = columns df.
Proof. rewrite filtrar_criterios. apply aplicar_todos_columns. Qed.

Lemma filter_comm {A : Type} (p r : A -> bool) (l : list A) :
  filter p (filter r l) = filter r (filter p l).
Proof.
  induction l as [| x l IH]; simpl; [reflexivity |].
  destruct (p x) eqn:Hp, (r x) eqn:Hr; simpl; rewrite ?Hp, ?Hr, IH; reflexivity.
Qed.

Lemma mesmo_resultado_refl {A : Type} (a : outcome A) : mesmo_resultado a a.
Proof. destruct a; simpl; auto. Qed.

Lemma mesmo_resultado_trans {A : Type} (a b c : outcome A) :
  mesmo_resultado a b -> mesmo_resultado b c -> mesmo_resultado a c.
Proof.
  destruct a, b, c; simpl; intros H1 H2; try contradiction; auto; congruence.
Qed.

Lemma mesmo_resultado_bind {A B : Type} (a b : outcome A) (k : A -> outcome B) :
  mesmo_resultado a b -> mesmo_resultado (x <- a ;; k x) (x <- b ;; k x).
Proof.
  destruct a, b; simpl; intros H; try contradiction; auto.
  subst. apply mesmo_resultado_refl.
Qed.

(** Exchanging two neighbours does not change the rows that survive. *)
Lemma aplicar_swap x y l f :
  mesmo_resultado (aplicar_todos (y :: x :: l) f) (aplicar_todos (x :: y :: l) f).
Proof.
  simpl. rewrite !aplicar_teste.
  destruct (teste (columns f) x) as [px | ex |] eqn:Hx;
    destruct (teste (columns f) y) as [py | ey |] eqn:Hy; simpl;
    rewrite ?aplicar_teste; simpl; rewrite ?Hx, ?Hy; simpl; auto.
  unfold Pd.select; simpl. rewrite filter_comm. apply mesmo_resultado_refl.
Qed.

Lemma aplicar_todos_perm l l' :
  Permutation l l' ->
  forall f, mesmo_resultado (aplicar_todos l f) (aplicar_todos l' f).
Proof.
  induction 1 as [| x l l' _ IH | x y l | l l' l'' _ IH1 _ IH2]; intros f.
  - apply mesmo_resultado_refl.
  - simpl. destruct (aplicar x f) as [f1 | e |]; simpl; auto.
  - apply aplicar_swap.
  - eapply mesmo_resultado_trans; [apply IH1 | apply IH2].
Qed.

End FilterStage.

(** The rows that survive a list of criteria are the rows that pass the
    test of each one: an intersection. *)
Lemma aplicar_todos_rows l :
  forall f ws, aplicar_todos l f = Ok ws ->
  columns ws = columns f /\
  forall row, In row (rows ws) <->
    In row (rows f) /\
    Forall (fun c => exists p, teste (columns f) c = Ok p /\ p row = true) l.
Proof.
  induction l as [| c l IH]; simpl; intros f ws H.
  - injection H as <-. split; [reflexivity |]. intros row. split.
    + intros Hin. split; [exact Hin | constructor].
    + intros [Hin _]. exact Hin.
  - apply bind_Ok_inv in H. destruct H as [f1 [H1 H2]].
    rewrite aplicar_teste in H1. apply bind_Ok_inv in H1.
    destruct H1 as [p [Hp H1]]. injection H1 as <-.
    destruct (IH _ _ H2) as [Hc Hr]. split; [exact Hc |].
    intros row. rewrite Hr. simpl. rewrite filter_In. split.
    + intros [[Hin Hrow] Hall]. split; [exact Hin |].
      constructor; [exists p; auto | exact Hall].
    + intros [Hin Hall]. inversion Hall as [| c' l' [p' [Hp' Hrow]] Hall']; subst.
      rewrite Hp in Hp'. injection Hp' as <-. auto.
Qed.

Lemma has_column_columns name f f' :
  columns f' = columns f -> Pd.has_column name f' = Pd.has_column name f.
Proof. unfold Pd.has_column. now intros ->. Qed.

Lemma texto_absent v col l f :
  Pd.has_column (Py.upper col) f = false ->
  forall f', columns f' = columns f ->
  aplicar_todos (texto v col ++ l) f' = aplicar_todos (texto None col ++ l) f'.
Proof.
  intros H f' Hc. unfold texto. destruct (Py.truthy v) as [s |]; simpl; [| reflexivity].
  unfold filtrar_coluna_texto. rewrite (has_column_columns _ _ _ Hc), H. reflexivity.
Qed.

Lemma prefixo_igual p la lb f :
  (forall f', columns f' = columns f -> aplicar_todos la f' = aplicar_todos lb f') ->
  forall f', columns f' = columns f ->
  aplicar_todos (p ++ la) f' = aplicar_todos (p ++ lb) f'.
Proof.
  intros H f' Hc. rewrite !aplicar_todos_app.
  destruct (aplicar_todos p f') as [f1 | e |] eqn:Hp; simpl; try reflexivity.
  apply H. rewrite (aplicar_todos_columns _ _ _ Hp). exact Hc.
Qed.

Lemma valor_de_com_campo c v q : valor_de c (com_campo c v q) = v.
Proof. destruct c; reflexivity. Qed.

Lemma valor_de_com_campo_other c c' v q :
  c <> c' -> valor_de c' (com_campo c v q) = valor_de c' q.
Proof. intros H. destruct c, c'; try reflexivity; contradiction. Qed.

Lemma responder_com_campo c v q ws :
  responder (com_campo c v q) ws = responder q ws.
Proof. reflexivity. Qed.

(** C7. A textual criterion whose column is absent from the table changes
    nothing: the answer is the one obtained without the criterion, and
    the filter itself returns the table it was given, whatever the value. *)
Theorem absent_column_criterion_is_noop df q c v :
  Pd.has_column (coluna_de c) df = false ->
  consultar df (com_campo c v q) = consultar df (com_campo c None q) /\
  (forall frame, columns frame = columns df ->
     forall valor, filtrar_coluna_texto frame (coluna_de c) valor = Ok frame).
Proof.
  intros H. split.
  - unfold consultar. rewrite !filtrar_criterios.
    assert (E : forall f', columns f' = columns df ->
                aplicar_todos (criterios (com_campo c v q)) f' =
                aplicar_todos (criterios (com_campo c None q)) f').
    { unfold criterios.
      destruct c; cbn -[texto igual app aplicar_todos];
        repeat first [ apply texto_absent; exact H | apply prefixo_igual ]. }
    rewrite (E df eq_refl). reflexivity.
  - intros frame Hc valor. unfold filtrar_coluna_texto.
    assert (Hu : Py.upper (coluna_de c) = coluna_de c) by (destruct c; reflexivity).
    rewrite Hu, (has_column_columns _ _ _ Hc), H. reflexivity.
Qed.

Lemma absent_column_criterion_is_noop_witness :
  consultar tabela_A (com_campo CalibreArma (Some "+P") consulta_padrao) =
  consultar tabela_A (com_campo CalibreArma None consulta_padrao).
Proof.
  apply (absent_column_criterion_is_noop tabela_A consulta_padrao CalibreArma
           (Some "+P")).
  reflexivity.
Defined.

(** C10. Passing the empty string for a textual parameter gives the
    answer obtained when the parameter is omitted. *)
Theorem empty_string_criterion_is_omitted df q c :
  consultar df (com_campo c (Some "") q) = consultar df (com_campo c None q).
Proof. destruct c; reflexivity. Qed.

(** C8. Applied in any order, the supplied criteria leave the same
    working set (or fail to compile a pattern in every order), so the
    answer does not depend on the order; the working set holds the rows
    of the table that pass the test of every criterion. *)
Theorem criteria_order_is_irrelevant q df l :
  Permutation (criterios q) l ->
  mesmo_resultado (filtrar q df) (aplicar_todos l df) /\
  mesmo_resultado (consultar df q) (ws <- aplicar_todos l df ;; responder q ws) /\
  (forall ws, aplicar_todos l df = Ok ws ->
     filtrar q df = Ok ws /\
     forall row, In row (rows ws) <->
       In row (rows df) /\
       Forall (fun c => exists p, teste (columns df) c = Ok p /\ p row = true)
              (criterios q)).
Proof.
  intros HP.
  assert (E : mesmo_resultado (filtrar q df) (aplicar_todos l df)).
  { rewrite filtrar_criterios. now apply aplicar_todos_perm. }
  split; [exact E |]. split.
  - unfold consultar. now apply mesmo_resultado_bind.
  - intros ws Hws. rewrite Hws in E.
    destruct (filtrar q df) as [ws' | e |] eqn:Hf; simpl in E; try contradiction.
    subst ws'. split; [reflexivity |].
    rewrite filtrar_criterios in Hf.
    exact (proj2 (aplicar_todos_rows _ _ _ Hf)).
Qed.

Lemma criteria_order_is_irrelevant_witness :
  mesmo_resultado
    (filtrar (mkConsulta (Some "b") None (Some "m") None None None None None None
                (Some 2025) None None (Some 5)) tabela_B)
    (aplicar_todos [Igual "ANO_EMISSAO" 2025; Texto "SEXO" "m"; Texto "UF" "b"]
       tabela_B).
Proof.
  refine (proj1 (criteria_order_is_irrelevant
           (mkConsulta (Some "b") None (Some "m") None None None None None None
              (Some 2025) None None (Some 5))
           tabela_B
           [Igual "ANO_EMISSAO" 2025; Texto "SEXO" "m"; Texto "UF" "b"] _)).
  simpl.
  apply Permutation_trans with [Texto "SEXO" "m"; Igual "ANO_EMISSAO" 2025; Texto "UF" "b"].
  - apply Permutation_trans with [Texto "SEXO" "m"; Texto "UF" "b"; Igual "ANO_EMISSAO" 2025].
    + apply perm_swap.
    + apply perm_skip. apply perm_swap.
  - apply perm_swap.
Defined.



(** ** The loader *)

Lemma load_dataset_hit w df path :
  PORTES_DF w = Some df -> load_dataset path w = (Ok df, w).
Proof.
  intros H. unfold load_dataset, bindM, get_PORTES_DF, ret.
  rewrite H. reflexivity.
Qed.

(** C9. After a successful load the cache holds the table returned, and
    every later call returns that table and leaves the process state as
    it was, so [read_csv] is not called again; the path passed to the
    later call plays no part. *)
Theorem load_dataset_cached w path df w1 :
  load_dataset path w = (Ok df, w1) ->
  PORTES_DF w1 = Some df /\
  forall path', load_dataset path' w1 = (Ok df, w1).
Proof.
  intros H.
  assert (Hc : PORTES_DF w1 = Some df).
  { unfold load_dataset, bindM, get_PORTES_DF, read_csv, set_PORTES_DF, ret in H.
    destruct (PORTES_DF w) as [cached |] eqn:Hw.
    - injection H as <- <-. exact Hw.
    - destruct (disk w path) as [e | raw]; [discriminate |].
      injection H as <- <-. reflexivity. }
  split; [exact Hc |].
  intros path'. now apply load_dataset_hit.
Qed.

Lemma load_dataset_cached_witness :
  load_dataset DATA_PATH mundo_A = (Ok tabela_A, mundo_A_carregado) /\
  load_dataset "outro.csv" mundo_A_carregado = (Ok tabela_A, mundo_A_carregado) /\
  reads (snd (load_dataset "outro.csv" mundo_A_carregado)) = [DATA_PATH].
Proof.
  split; [reflexivity |].
  pose proof (load_dataset_cached mundo_A DATA_PATH tabela_A mundo_A_carregado
                eq_refl) as [_ H].
  rewrite (H "outro.csv"). split; reflexivity.
Defined.

(** ** The answer *)







(** ** Arithmetic in int64 *)

Module Int64.
Import Pd.

Lemma wrap64_small z : int64 z = true -> wrap64 z = z.
Proof.
  unfold int64, wrap64. intros H. apply andb_true_iff in H. destruct H as [H1 H2].
  apply Z.leb_le in H1. apply Z.ltb_lt in H2.
  rewrite Z.mod_small; lia.
Qed.

Lemma wrap64_range z : int64 (wrap64 z) = true.
Proof.
  unfold int64, wrap64.
  pose proof (Z.mod_pos_bound (z + 2 ^ 63) (2 ^ 64) ltac:(lia)) as H.
  apply andb_true_iff. split; [apply Z.leb_le | apply Z.ltb_lt]; lia.
Qed.

Lemma wrap64_add_l a b : wrap64 (wrap64 a + b) = wrap64 (a + b).
Proof.
  unfold wrap64.
  replace ((a + 2 ^ 63) mod 2 ^ 64 - 2 ^ 63 + b + 2 ^ 63)
    with ((a + 2 ^ 63) mod 2 ^ 64 + b) by lia.
  rewrite Zplus_mod_idemp_l. f_equal. f_equal. lia.
Qed.

Lemma wrap64_add_r a b : wrap64 (a + wrap64 b) = wrap64 (a + b).
Proof. rewrite (Z.add_comm a), wrap64_add_l. f_equal. lia. Qed.

Lemma wrap64_idem a : wrap64 (wrap64 a) = wrap64 a.
Proof. apply wrap64_small, wrap64_range. Qed.

(** Adding one value after the other in int64 gives the sum, reduced
    into the range. *)
Lemma fold_add64 {A : Type} (h : A -> Z) (l : list A) :
  forall acc,
    fold_left (fun a x => add64 a (h x)) l acc =
    match l with
    | [] => acc
    | _ => wrap64 (acc + fold_right Z.add 0 (map h l))
    end.
Proof.
  induction l as [| x l IH]; intros acc; [reflexivity |].
  cbn [fold_left map fold_right]. rewrite IH. unfold add64.
  destruct l as [| y l]; [f_equal; cbn; lia |].
  rewrite wrap64_add_l. f_equal. cbn [map fold_right]. lia.
Qed.

End Int64.

(** ** Groups *)

Module Groups.
Import Pd.

Lemma key_eqb_spec a b : key_eqb a b = true <-> a = b.
Proof.
  destruct a as [s | x |], b as [t | y |]; simpl;
    try (split; [discriminate | intros H; discriminate H]).
  - rewrite String.eqb_eq. split; [now intros -> | now intros [= ->]].
  - rewrite Z.eqb_eq. split; [now intros -> | now intros [= ->]].
  - split; reflexivity.
Qed.

Lemma key_eqb_refl a : key_eqb a a = true.
Proof. now apply key_eqb_spec. Qed.

Lemma lookup_acumular k k' v groups :
  lookup k (acumular k' v groups) =
  if key_eqb k k' then Some (add64 (or_zero (lookup k groups)) v)
  else lookup k groups.
Proof.
  induction groups as [| [k0 t] rest IH]; simpl.
  - destruct (key_eqb k k'); reflexivity.
  - destruct (key_eqb k' k0) eqn:E0; simpl.
    + apply key_eqb_spec in E0. subst k0.
      destruct (key_eqb k k'); reflexivity.
    + rewrite IH. destruct (key_eqb k k') eqn:E1, (key_eqb k k0) eqn:E2; try reflexivity.
      apply key_eqb_spec in E1, E2. subst. rewrite key_eqb_refl in E0. discriminate.
Qed.

Lemma acumular_keys k v groups :
  NoDup (map fst groups) -> NoDup (map fst (acumular k v groups)).
Proof.
  assert (Hin : forall g x, In x (map fst (acumular k v g)) -> x = k \/ In x (map fst g)).
  { induction g as [| [k0 t] rest IH]; simpl; intros x Hx.
    - destruct Hx as [<- | []]. now left.
    - destruct (key_eqb k k0); simpl in Hx.
      + right. exact Hx.
      + destruct Hx as [<- | Hx]; [right; now left |].
        destruct (IH _ Hx) as [-> | H]; [now left | right; now right]. }
  induction groups as [| [k0 t] rest IH]; simpl; intros Hnd.
  - repeat constructor. intros [].
  - inversion Hnd as [| ? ? Hnot Hrest]; subst.
    destruct (key_eqb k k0) eqn:E; simpl.
    + constructor; assumption.
    + constructor; [| apply IH; exact Hrest].
      intros Hx. destruct (Hin _ _ Hx) as [-> | H]; [| contradiction].
      rewrite key_eqb_refl in E. discriminate.
Qed.

Lemma lookup_In k t groups :
  NoDup (map fst groups) -> (lookup k groups = Some t <-> In (k, t) groups).
Proof.
  induction groups as [| [k0 t0] rest IH]; simpl; intros Hnd.
  - split; [discriminate | intros []].
  - inversion Hnd as [| ? ? Hnot Hrest]; subst.
    destruct (key_eqb k k0) eqn:E.
    + apply key_eqb_spec in E. subst k0. split.
      * intros [= ->]. now left.
      * intros [[= ->] | Hin]; [reflexivity |].
        exfalso. apply Hnot. apply (in_map fst) in Hin. exact Hin.
    + rewrite (IH Hrest). split; [now right |].
      intros [[= -> ->] | Hin]; [| exact Hin].
      rewrite key_eqb_refl in E. discriminate.
Qed.

Section Fold.

Variables (col : string) (weight : list cell -> Z) (f : DataFrame).

Lemma step_keys groups row :
  NoDup (map fst groups) -> NoDup (map fst (step col weight f groups row)).
Proof.
  unfold Pd.step. intros H. destruct (get col f row); auto using acumular_keys.
Qed.

Lemma lookup_step k groups row :
  k <> CNaN ->
  lookup k (step col weight f groups row) =
  if key_eqb (get col f row) k
  then Some (add64 (or_zero (lookup k groups)) (weight row))
  else lookup k groups.
Proof.
  intros Hk. unfold Pd.step.
  destruct (get col f row) as [s | z |] eqn:Hg.
  - rewrite lookup_acumular.
    destruct (key_eqb k (CStr s)) eqn:E.
    + apply key_eqb_spec in E. subst k. now rewrite key_eqb_refl.
    + destruct (key_eqb (CStr s) k) eqn:E'; [| reflexivity].
      apply key_eqb_spec in E'. subst k. rewrite key_eqb_refl in E. discriminate.
  - rewrite lookup_acumular.
    destruct (key_eqb k (CInt z)) eqn:E.
    + apply key_eqb_spec in E. subst k. now rewrite key_eqb_refl.
    + destruct (key_eqb (CInt z) k) eqn:E'; [| reflexivity].
      apply key_eqb_spec in E'. subst k. rewrite key_eqb_refl in E. discriminate.
  - destruct (key_eqb CNaN k) eqn:E; [| reflexivity].
    apply key_eqb_spec in E. congruence.
Qed.

Lemma fold_step_keys rs :
  forall groups, NoDup (map fst groups) ->
                 NoDup (map fst (fold_left (step col weight f) rs groups)).
Proof.
  induction rs as [| row rs IH]; simpl; intros groups H; [exact H |].
  apply IH. now apply step_keys.
Qed.

Lemma lookup_fold k rs :
  k <> CNaN ->
  forall groups,
    lookup k (fold_left (step col weight f) rs groups) =
    match rows_of_key col f k rs, lookup k groups with
    | [], o => o
    | _ :: _, o =>
        Some (wrap64 (or_zero o +
                      fold_right Z.add 0 (map weight (rows_of_key col f k rs))))
    end.
Proof.
  intros Hk. induction rs as [| row rs IH]; intros groups.
  - reflexivity.
  - cbn [fold_left]. rewrite IH, (lookup_step _ _ _ Hk).
    unfold rows_of_key. cbn [filter].
    destruct (key_eqb (get col f row) k); [| reflexivity].
    cbn [or_zero map fold_right]. unfold add64.
    destruct (filter _ rs) as [| r1 rest].
    + cbn [map fold_right]. do 2 f_equal. lia.
    + rewrite Int64.wrap64_add_l. do 2 f_equal. lia.
Qed.

Lemma step_no_nan groups row :
  ~ In CNaN (map fst groups) -> ~ In CNaN (map fst (step col weight f groups row)).
Proof.
  unfold Pd.step. intros H.
  assert (Hin : forall k v g, k <> CNaN -> ~ In CNaN (map fst g) ->
                              ~ In CNaN (map fst (acumular k v g))).
  { intros k v g Hk. induction g as [| [k0 t] rest IH]; simpl; intros Hg.
    - intros [E | []]. congruence.
    - destruct (key_eqb k k0); simpl; [exact Hg |].
      intros [E | Hx]; [apply Hg; now left |].
      apply IH; [| exact Hx]. intros Hy. apply Hg. now right. }
  destruct (get col f row); [apply Hin | apply Hin | exact H]; (discriminate || exact H).
Qed.

Lemma fold_step_no_nan rs :
  forall groups, ~ In CNaN (map fst groups) ->
                 ~ In CNaN (map fst (fold_left (step col weight f) rs groups)).
Proof.
  induction rs as [| row rs IH]; simpl; intros groups H; [exact H |].
  apply IH. now apply step_no_nan.
Qed.

End Fold.

Lemma insert_key_perm x l : Permutation (x :: l) (insert_key x l).
Proof.
  induction l as [| y l IH]; simpl.
  - apply Permutation_refl.
  - destruct (key_leb (fst x) (fst y)).
    + apply Permutation_refl.
    + apply Permutation_trans with (y :: x :: l); [apply perm_swap |].
      apply perm_skip. exact IH.
Qed.

Lemma sort_keys_perm l : Permutation l (sort_keys l).
Proof.
  induction l as [| x l IH]; simpl.
  - apply perm_nil.
  - apply Permutation_trans with (x :: sort_keys l).
    + apply perm_skip. exact IH.
    + apply insert_key_perm.
Qed.

(** [groupby] has one group per key that occurs in the column, missing
    values apart, and the total of a group is the sum over its rows. *)
Lemma groupby_spec col weight f k t :
  In (k, t) (groupby col weight f) <->
  k <> CNaN /\ rows_of_key col f k (rows f) <> [] /\ t = sum_of_key col weight f k (rows f).
Proof.
  unfold groupby.
  set (g := fold_left _ (rows f) []).
  assert (Hg : g = fold_left (Pd.step col weight f) (rows f) []) by reflexivity.
  assert (Hnd : NoDup (map fst g)).
  { rewrite Hg. apply fold_step_keys. constructor. }
  assert (Hnan : ~ In CNaN (map fst g)).
  { rewrite Hg. apply fold_step_no_nan. intros []. }
  assert (Hperm : In (k, t) (sort_keys g) <-> In (k, t) g).
  { split; apply Permutation_in;
      [apply Permutation_sym |]; apply sort_keys_perm. }
  rewrite Hperm, <- (lookup_In k t g Hnd). split.
  - intros Hl.
    assert (Hk : k <> CNaN).
    { intros ->. apply Hnan. apply (lookup_In CNaN t g Hnd) in Hl.
      apply (in_map fst) in Hl. exact Hl. }
    split; [exact Hk |].
    rewrite Hg, (lookup_fold col weight f k (rows f) Hk) in Hl.
    unfold sum_of_key, rows_of_key in *.
    destruct (filter _ (rows f)); [discriminate |].
    split; [discriminate |]. injection Hl as <-. reflexivity.
  - intros [Hk [Hne ->]].
    rewrite Hg, (lookup_fold col weight f k (rows f) Hk).
    unfold sum_of_key, rows_of_key in *.
    destruct (filter _ (rows f)); [contradiction | reflexivity].
Qed.

(** No key has two groups. *)
Lemma groupby_keys col weight f : NoDup (map fst (groupby col weight f)).
Proof.
  unfold groupby.
  apply (Permutation_NoDup (l := map fst (fold_left (Pd.step col weight f) (rows f) []))).
  - apply Permutation_map. apply sort_keys_perm.
  - apply fold_step_keys. constructor.
Qed.

End Groups.

(** ** The ranking *)

Section Ranking.

Lemma insert_desc_perm x l : Permutation (x :: l) (Pd.insert_desc x l).
Proof.
  induction l as [| y l IH]; simpl.
  - apply Permutation_refl.
  - destruct (Z.leb (snd y) (snd x)).
    + apply Permutation_refl.
    + apply Permutation_trans with (y :: x :: l); [apply perm_swap |].
      apply perm_skip. exact IH.
Qed.

Lemma sort_values_desc_perm l : Permutation l (Pd.sort_values_desc l).
Proof.
  induction l as [| x l IH]; simpl.
  - apply perm_nil.
  - apply Permutation_trans with (x :: Pd.sort_values_desc l).
    + apply perm_skip. exact IH.
    + apply insert_desc_perm.
Qed.

Lemma insert_desc_hd y x l :
  desc y x -> HdRel desc y l -> HdRel desc y (Pd.insert_desc x l).
Proof.
  intros Hyx Hl. destruct l as [| z l]; simpl.
  - constructor. exact Hyx.
  - destruct (Z.leb (snd z) (snd x)); constructor.
    + exact Hyx.
    + inversion Hl; assumption.
Qed.

Lemma insert_desc_sorted x l :
  Sorted desc l -> Sorted desc (Pd.insert_desc x l).
Proof.
  induction l as [| y l IH]; simpl; intros Hs.
  - repeat constructor.
  - inversion Hs as [| y' l' Hs' Hhd]; subst.
    destruct (Z.leb (snd y) (snd x)) eqn:Hle.
    + constructor; [exact Hs |]. constructor. unfold desc. lia.
    + constructor; [apply IH; exact Hs' |].
      apply insert_desc_hd; [unfold desc; lia | exact Hhd].
Qed.

Lemma sort_values_desc_sorted l : Sorted desc (Pd.sort_values_desc l).
Proof.
  induction l as [| x l IH]; simpl.
  - constructor.
  - apply insert_desc_sorted. exact IH.
Qed.

Lemma firstn_sorted n :
  forall l, Sorted desc l -> Sorted desc (firstn n l).
Proof.
  induction n as [| n IH]; intros l Hs; simpl.
  - constructor.
  - destruct l as [| x l]; [constructor |].
    inversion Hs as [| x' l' Hs' Hhd]; subst.
    constructor; [apply IH; exact Hs' |].
    destruct n as [| n]; simpl; [constructor |].
    destruct l as [| y l]; [constructor |].
    inversion Hhd; subst. constructor. assumption.
Qed.

Lemma limitar_sorted top tabela :
  Sorted desc tabela -> Sorted desc (limitar top tabela).
Proof.
  intros Hs. destruct top as [n |]; simpl; [| exact Hs].
  unfold Pd.head. destruct (Z.leb 0 n); apply firstn_sorted; exact Hs.
Qed.

(** What a grouping that succeeds has computed, and on what. *)
Lemma agrupar_groupby col ws tabela :
  agrupar col ws = Ok tabela ->
  tabela = Pd.sort_values_desc (Pd.groupby col (peso ws) ws).
Proof.
  unfold agrupar, peso. intros H. destruct (Pd.has_column "TOTAL" ws).
  - destruct (String.eqb col "TOTAL"); [discriminate |].
    destruct (total_int64 ws && chave_uniforme col ws)%bool; [| discriminate].
    now injection H as <-.
  - destruct (chave_uniforme col ws); [| discriminate]. now injection H as <-.
Qed.

Lemma agrupar_dtypes col ws tabela :
  agrupar col ws = Ok tabela ->
  total_int64 ws = true /\ chave_uniforme col ws = true.
Proof.
  unfold agrupar, total_int64. intros H. destruct (Pd.has_column "TOTAL" ws).
  - destruct (String.eqb col "TOTAL"); [discriminate |]. cbn [negb orb] in *.
    destruct (Pd.int64_column "TOTAL" ws); [| discriminate].
    destruct (chave_uniforme col ws); [auto | discriminate].
  - destruct (chave_uniforme col ws); [auto | discriminate].
Qed.

Lemma agrupar_sorted col ws tabela :
  agrupar col ws = Ok tabela -> Sorted desc tabela.
Proof.
  intros H. rewrite (agrupar_groupby _ _ _ H). apply sort_values_desc_sorted.
Qed.

(** The table of groups has one entry for each value that occurs in the
    grouping column, with the sum over the rows of that value. *)
Lemma agrupar_spec col ws tabela k t :
  agrupar col ws = Ok tabela ->
  In (k, t) tabela <->
  k <> CNaN /\ rows_of_key col ws k (rows ws) <> [] /\
  t = sum_of_key col (peso ws) ws k (rows ws).
Proof.
  intros H. rewrite (agrupar_groupby _ _ _ H), <- Groups.groupby_spec.
  split; apply Permutation_in;
    [apply Permutation_sym |]; apply sort_values_desc_perm.
Qed.

(** Grouping succeeds for every column but TOTAL itself, when the
    dtypes are those the model covers. *)
Lemma agrupar_returns col ws :
  Pd.has_column "TOTAL" ws = false \/ col <> "TOTAL" ->
  total_int64 ws = true ->
  chave_uniforme col ws = true ->
  exists tabela, agrupar col ws = Ok tabela.
Proof.
  unfold agrupar. intros H Ht Hk. rewrite Ht, Hk.
  destruct (Pd.has_column "TOTAL" ws).
  - destruct (String.eqb_spec col "TOTAL") as [E | _].
    + destruct H as [H | H]; [discriminate | contradiction].
    + eexists. reflexivity.
  - eexists. reflexivity.
Qed.

Lemma consultar_ranking df q ws g tabela :
  filtrar q df = Ok ws ->
  Pd.empty ws = false ->
  Py.truthy (agrupar_por q) = Some g ->
  Pd.has_column (Py.upper g) ws = true ->
  agrupar (Py.upper g) ws = Ok tabela ->
  consultar df q =
    Ok (msg_ranking (total_de ws) (Py.upper g) (limitar (top_n q) tabela)).
Proof.
  intros Hf He Hg Hc Ha. unfold consultar. rewrite Hf. simpl.
  unfold responder. rewrite He, Hg, Hc. simpl. rewrite Ha. reflexivity.
Qed.

End Ranking.

(** The ranking under the default limit, for a grouping that succeeds:
    at most five lines, largest total first, each line a group of the
    table of groups. *)
Lemma ranking_default_limit df q ws g tabela :
  filtrar q df = Ok ws ->
  Pd.empty ws = false ->
  Py.truthy (agrupar_por q) = Some g ->
  Pd.has_column (Py.upper g) ws = true ->
  agrupar (Py.upper g) ws = Ok tabela ->
  top_n q = Some 5 ->
  exists ranking,
    consultar df q = Ok (msg_ranking (total_de ws) (Py.upper g) ranking) /\
    ranking = firstn 5 tabela /\
    (length ranking <= 5)%nat /\
    Sorted desc ranking.
Proof.
  intros Hf He Hg Hc Ha Ht. exists (limitar (top_n q) tabela).
  split; [now apply consultar_ranking |].
  rewrite Ht. simpl. unfold Pd.head. simpl. repeat split.
  - apply (firstn_le_length 5).
  - apply (firstn_sorted 5). now apply agrupar_sorted with (Py.upper g) ws.
Qed.

(** C6. Grouping the totals by the TOTAL column itself, which exists in
    the table, raises [ValueError] in [reset_index] instead of returning
    a ranking of at most five lines. *)
Theorem ranking_by_total_raises :
  Pd.has_column (Py.upper "total") tabela_A = true /\
  consultar tabela_A (com_grupo (Some "total") (Some 5) consulta_padrao) =
    Raise ValueError /\
  fst (consultar_portes (com_grupo (Some "total") (Some 5) consulta_padrao) mundo_A) =
    Raise ValueError.
Proof. repeat split. Qed.







Lemma forallb_filter {A : Type} (t p : A -> bool) (l : list A) :
  forallb t l = true -> forallb t (filter p l) = true.
Proof.
  induction l as [| x l IH]; simpl; [auto |].
  intros H. apply andb_true_iff in H. destruct H as [Hx Hl].
  destruct (p x); simpl; [rewrite Hx |]; auto.
Qed.

(** Selecting rows keeps the dtype of the columns. *)
Lemma total_int64_filtrar q df ws :
  filtrar q df = Ok ws -> total_int64 df = true -> total_int64 ws = true.
Proof.
  intros Hf Ht. rewrite filtrar_criterios in Hf.
  pose proof (aplicar_todos_columns _ _ _ Hf) as Hc.
  assert (Hr : exists p, rows ws = filter p (rows df)).
  { clear Ht Hc. revert df ws Hf.
    induction (criterios q) as [| c l IH]; simpl; intros df ws Hf.
    - injection Hf as <-. exists (fun _ => true). now rewrite filter_all.
    - apply bind_Ok_inv in Hf. destruct Hf as [f1 [H1 H2]].
      rewrite aplicar_teste in H1. apply bind_Ok_inv in H1.
      destruct H1 as [p [_ H1]]. injection H1 as <-.
      destruct (IH _ _ H2) as [r Hr]. cbn [Pd.select rows] in Hr.
      exists (fun x => (p x && r x)%bool). rewrite Hr.
      clear. induction (rows df) as [| x rs IHr]; simpl; [reflexivity |].
      destruct (p x); simpl; [destruct (r x) |]; now rewrite IHr. }
  destruct Hr as [p Hr].
  unfold total_int64, Pd.has_column, Pd.int64_column, Pd.get in *.
  rewrite Hc, Hr. apply orb_true_iff in Ht. apply orb_true_iff.
  destruct Ht as [Ht | Ht]; [now left | right].
  now apply forallb_filter.
Qed.

Lemma empty_rows ws : Pd.empty ws = false -> rows ws <> [].
Proof.
  unfold Pd.empty. destruct (columns ws), (rows ws); discriminate.
Qed.




(** With a float64 TOTAL the model gives no summary: the number that the
    program prints is not computed. *)
Lemma float_total_not_answered df q ws :
  filtrar q df = Ok ws ->
  Pd.empty ws = false ->
  Pd.has_column "TOTAL" ws = true ->
  Pd.object_column "TOTAL" ws = true ->
  Py.truthy (agrupar_por q) = None ->
  consultar df q = OutOfFragment.
Proof.
  intros Hf He Hc Ho Hg. unfold consultar. rewrite Hf. cbn [bind].
  unfold responder. rewrite He, Hg.
  assert (Hi : total_int64 ws = false).
  { unfold total_int64. rewrite Hc. cbn [negb orb].
    unfold Pd.int64_column, Pd.object_column in *.
    pose proof (empty_rows _ He) as Hne.
    destruct (rows ws) as [| row rs]; [contradiction |].
    cbn [forallb] in *. apply andb_true_iff in Ho. destruct Ho as [Ho _].
    destruct (Pd.get "TOTAL" ws row); [reflexivity | discriminate | reflexivity]. }
  now rewrite Hi.
Qed.


(** ** The regular-expression matcher *)

Module ReFacts.
Import Re.


Lemma append_assoc (s1 s2 s3 : string) : (s1 ++ s2) ++ s3 = s1 ++ (s2 ++ s3).
Proof. induction s1 as [| c s1 IH]; simpl; [reflexivity | now rewrite IH]. Qed.

Lemma append_nil_r (s : string) : s ++ "" = s.
Proof. induction s as [| c s IH]; simpl; [reflexivity | now rewrite IH]. Qed.






End ReFacts.

Module PlainPatterns.
Import Re ReFacts.







Lemma upper_char_plain c : plain_char c = true -> plain (Py.upper_char c) = true.
Proof.
  destruct c as [[] [] [] [] [] [] [] []]; vm_compute; intros H;
    first [reflexivity | discriminate].
Qed.

Lemma plain_app s t : plain (s ++ t) = (plain s && plain t)%bool.
Proof.
  induction s as [| c s IH]; simpl; [reflexivity |].
  rewrite IH. apply andb_assoc.
Qed.

Lemma upper_plain s : plain s = true -> plain (Py.upper s) = true.
Proof.
  induction s as [| c s IH]; simpl; [auto |].
  intros H. apply andb_true_iff in H. destruct H as [Hc Hs].
  rewrite plain_app, (upper_char_plain c Hc), (IH Hs). reflexivity.
Qed.



End PlainPatterns.

(** C1. In [filtrar_coluna_texto] the value is a regular expression,
    not a literal: on the table of calibers, [".380"] keeps ".380 ACP" but
    also "9380 mag", which does not contain ".380"; [".38 spl+p"] drops
    ".38 SPL+P", which contains it; ["+P"] raises [re.error]. *)
Theorem caliber_value_is_a_pattern :
  filtrar_coluna_texto tabela_calibres "CALIBRE_ARMA" ".380" =
    Ok (mkFrame ["CALIBRE_ARMA"; "TOTAL"]
          [ [CStr ".380 ACP"; CInt 4]; [CStr "9380 mag"; CInt 2] ]) /\
  Py.contains (Py.upper ".380") (Py.upper ".380 ACP") = true /\
  Py.contains (Py.upper ".380") (Py.upper "9380 mag") = false /\
  filtrar_coluna_texto tabela_calibres "CALIBRE_ARMA" ".38 spl+p" =
    Ok (mkFrame ["CALIBRE_ARMA"; "TOTAL"] []) /\
  Py.contains (Py.upper ".38 spl+p") (Py.upper ".38 SPL+P") = true /\
  filtrar_coluna_texto tabela_calibres "CALIBRE_ARMA" "+P" = Raise re_error /\
  consultar tabela_calibres (com_campo CalibreArma (Some "+P") consulta_padrao) =
    Raise re_error.
Proof. repeat split. Qed.

(** ** The entry point and the scenarios *)

(** With the table in the cache, [consultar_portes] is [consultar] on
    that table and leaves the process state alone. *)
Lemma consultar_portes_cached q w df :
  PORTES_DF w = Some df -> consultar_portes q w = (consultar df q, w).
Proof.
  intros H. unfold consultar_portes, bindM.
  rewrite (load_dataset_hit _ _ _ H). reflexivity.
Qed.

Lemma nth_update_nth g row :
  forall i, nth i (Pd.update_nth i g row) CNaN =
            if Nat.ltb i (length row) then g (nth i row CNaN) else CNaN.
Proof.
  induction row as [| v row IH]; intros [| i]; simpl; try reflexivity.
  rewrite IH. reflexivity.
Qed.

Lemma index_of_has_column name cols :
  Pd.index_of name cols = None <-> existsb (String.eqb name) cols = false.
Proof.
  induction cols as [| c cols IH]; simpl; [split; reflexivity |].
  destruct (String.eqb name c); simpl.
  - split; discriminate.
  - rewrite <- IH. destruct (Pd.index_of name cols); simpl; split; congruence.
Qed.

(** After the loader's treatment the TOTAL column is of one kind: int64
    in every row, or a float64 written as text in every row. *)
Lemma normalize_total_dtype df :
  Pd.int64_column "TOTAL" (normalize df) = true \/
  Pd.object_column "TOTAL" (normalize df) = true.
Proof.
  unfold normalize.
  remember (mkFrame (map (fun c => Py.upper (Py.strip c)) (columns df)) (rows df))
    as f eqn:Ef. clear Ef.
  destruct (Pd.has_column "TOTAL" f) eqn:Hc.
  - unfold Pd.to_numeric_fillna.
    destruct (Pd.int64_column "TOTAL" f) eqn:Hi; [now left | right].
    unfold Pd.object_column, Pd.map_column, Pd.get.
    destruct (Pd.index_of "TOTAL" (columns f)) as [i |] eqn:Hx; cbn [columns rows].
    + rewrite Hx. apply forallb_forall. intros row Hin.
      apply in_map_iff in Hin. destruct Hin as [row0 [<- _]].
      rewrite nth_update_nth. destruct (Nat.ltb i (length row0)); [| reflexivity].
      destruct (nth i row0 CNaN); reflexivity.
    + apply forallb_forall. intros row _. now rewrite Hx.
  - right. unfold Pd.object_column, Pd.get.
    unfold Pd.has_column in Hc. apply index_of_has_column in Hc. rewrite Hc.
    apply forallb_forall. reflexivity.
Qed.

(** Scenario A, from the file to the answer. *)
Example scenario_A :
  consultar_portes (com_campo Uf (Some "BA") consulta_padrao) mundo_A =
  (Ok (msg_resumo 15 2), mundo_A_carregado).
Proof. reflexivity. Qed.

(** Scenario B. *)
Example scenario_B :
  fst (consultar_portes (com_grupo (Some "UF") (Some 1) consulta_padrao) mundo_A) =
  Ok (msg_total 22 ++ "Ranking por UF (top 1):" ++ nl ++ "- BA: 15 portes").
Proof. reflexivity. Qed.

(** Scenario C. *)
Example scenario_C :
  fst (consultar_portes (com_grupo (Some "NONEXISTENT") (Some 5) consulta_padrao)
         mundo_A) =
  Ok ("A coluna 'NONEXISTENT' n" ++ a_tilde ++ "o existe no dataset." ++ nl ++
      "Colunas dispon" ++ i_acute ++ "veis: UF, TOTAL").
Proof. reflexivity. Qed.

(** Scenario D. *)
Example scenario_D :
  fst (consultar_portes (com_campo Uf (Some "ZZ") consulta_padrao) mundo_A) =
  Ok "Nenhum registro encontrado com esses filtros.".
Proof. reflexivity. Qed.

(** A missing file: the error is raised and the cache stays empty. *)
Example missing_file :
  load_dataset "nada.csv" mundo_A =
  (Raise FileNotFoundError, mkWorld None (disk mundo_A) ["nada.csv"]).
Proof. reflexivity. Qed.

Example upper_380 : Py.upper ".380 acp" = ".380 ACP".
Proof. reflexivity. Qed.

Example strip_uf : Py.strip "  uf " = "uf".
Proof. reflexivity. Qed.

Example str_int_neg : Py.str_int (-15) = "-15".
Proof. reflexivity. Qed.

Example str_int_zero : Py.str_int 0 = "0".
Proof. reflexivity. Qed.

Example parse_int_ex : Py.parse_int " 42" = Some 42.
Proof. reflexivity. Qed.

Example compile_380 :
  Re.compile ".380" = Ok (Re.cat_all [Re.Dot; Re.Chr "3"; Re.Chr "8"; Re.Chr "0"]).
Proof. reflexivity. Qed.

Example compile_star : Re.compile "*" = Raise re_error.
Proof. reflexivity. Qed.

Example compile_lone_backslash : Re.compile "9MM\" = Raise re_error.
Proof. reflexivity. Qed.

Example compile_close_paren : Re.compile "A)" = Raise re_error.
Proof. reflexivity. Qed.

Example compile_group : Re.compile "(A)" = OutOfFragment.
Proof. reflexivity. Qed.

(** * Further properties of the loader, the query engine and the loop *)

(** ** The loader *)

Lemma load_dataset_miss w path raw :
  PORTES_DF w = None ->
  disk w path = inr raw ->
  load_dataset path w =
  (Ok (normalize raw), mkWorld (Some (normalize raw)) (disk w) (path :: reads w)).
Proof.
  intros Hc Hd.
  unfold load_dataset, bindM, get_PORTES_DF, read_csv, set_PORTES_DF, ret.
  cbn beta iota. rewrite Hc. cbn beta iota. rewrite Hd. cbn. rewrite ?Hc.
  reflexivity.
Qed.

Lemma load_dataset_fail w path e :
  PORTES_DF w = None ->
  disk w path = inl e ->
  load_dataset path w = (Raise e, mkWorld None (disk w) (path :: reads w)).
Proof.
  intros Hc Hd.
  unfold load_dataset, bindM, get_PORTES_DF, read_csv, set_PORTES_DF, ret.
  cbn beta iota. rewrite Hc. cbn beta iota. rewrite Hd. cbn. rewrite ?Hc.
  reflexivity.
Qed.

(** X1. A load that fails is not remembered: the exception of [read_csv]
    reaches the caller, the cache stays empty, and the next call reads
    again, so that a later call on a readable path loads the table. *)
Theorem failed_load_is_retried w path e path' raw :
  PORTES_DF w = None ->
  disk w path = inl e ->
  disk w path' = inr raw ->
  exists w1 w2,
    load_dataset path w = (Raise e, w1) /\
    PORTES_DF w1 = None /\
    reads w1 = path :: reads w /\
    load_dataset path' w1 = (Ok (normalize raw), w2) /\
    PORTES_DF w2 = Some (normalize raw) /\
    reads w2 = path' :: path :: reads w.
Proof.
  intros Hc He Hr.
  exists (mkWorld None (disk w) (path :: reads w)).
  exists (mkWorld (Some (normalize raw)) (disk w) (path' :: path :: reads w)).
  split; [now apply load_dataset_fail |].
  repeat split.
  now apply load_dataset_miss.
Qed.

Lemma failed_load_is_retried_witness :
  exists w1 w2,
    load_dataset "nada.csv" mundo_A = (Raise FileNotFoundError, w1) /\
    PORTES_DF w1 = None /\
    reads w1 = ["nada.csv"] /\
    load_dataset DATA_PATH w1 = (Ok (normalize arquivo_A), w2) /\
    PORTES_DF w2 = Some (normalize arquivo_A) /\
    reads w2 = [DATA_PATH; "nada.csv"].
Proof.
  apply (failed_load_is_retried mundo_A "nada.csv" FileNotFoundError DATA_PATH
           arquivo_A); reflexivity.
Defined.

Lemma index_of_lt name cols i : Pd.index_of name cols = Some i -> (i < length cols)%nat.
Proof.
  revert i. induction cols as [| c cols IH]; simpl; intros i H; [discriminate |].
  destruct (String.eqb name c).
  - injection H as <-. lia.
  - destruct (Pd.index_of name cols) as [j |]; [| discriminate].
    injection H as <-. specialize (IH j eq_refl). lia.
Qed.

Lemma index_of_neq a b cols i j :
  a <> b -> Pd.index_of a cols = Some i -> Pd.index_of b cols = Some j -> i <> j.
Proof.
  intros Hab. revert i j. induction cols as [| c cols IH]; simpl; intros i j Hi Hj.
  - discriminate.
  - destruct (String.eqb_spec a c) as [Ea | Na], (String.eqb_spec b c) as [Eb | Nb].
    + congruence.
    + injection Hi as <-.
      destruct (Pd.index_of b cols); [injection Hj as <-; discriminate | discriminate].
    + injection Hj as <-.
      destruct (Pd.index_of a cols); [injection Hi as <-; discriminate | discriminate].
    + destruct (Pd.index_of a cols) as [i' |]; [| discriminate].
      destruct (Pd.index_of b cols) as [j' |]; [| discriminate].
      injection Hi as <-. injection Hj as <-.
      specialize (IH i' j' eq_refl eq_refl). congruence.
Qed.

Lemma nth_update_nth_other g row :
  forall i j, i <> j -> nth j (Pd.update_nth i g row) CNaN = nth j row CNaN.
Proof.
  induction row as [| v row IH]; intros [| i] [| j] H; simpl; try reflexivity.
  - contradiction.
  - apply IH. congruence.
Qed.

Lemma update_nth_length g row : forall i, length (Pd.update_nth i g row) = length row.
Proof.
  induction row as [| v row IH]; intros [| i]; simpl; try reflexivity.
  now rewrite IH.
Qed.

Lemma nth_map_nil (h : list cell -> list cell) :
  h [] = [] -> forall l i, nth i (map h l) [] = h (nth i l []).
Proof.
  intros Hh l. induction l as [| x l IH]; intros [| i]; simpl; auto.
Qed.

(** X2. What the first successful load hands out: the header of the file
    stripped and upper-cased, in the order of the file, and as many rows
    as the file has.  When there is no TOTAL column, or TOTAL is an
    int64 column, the rows are those of the file, value for value.
    Otherwise TOTAL has become a float64 column, in every row, and every
    other column is as [read_csv] delivered it. *)
Theorem loaded_table_shape w path df w1 :
  PORTES_DF w = None ->
  load_dataset path w = (Ok df, w1) ->
  exists raw,
    disk w path = inr raw /\
    columns df = map (fun c => Py.upper (Py.strip c)) (columns raw) /\
    length (rows df) = length (rows raw) /\
    (Pd.has_column "TOTAL" df = false \/
     Pd.int64_column "TOTAL" (mkFrame (columns df) (rows raw)) = true ->
     rows df = rows raw) /\
    (Pd.int64_column "TOTAL" df = true \/ Pd.object_column "TOTAL" df = true) /\
    (forall i name, name <> "TOTAL" ->
       Pd.get name df (nth i (rows df) []) =
       Pd.get name (mkFrame (columns df) (rows raw)) (nth i (rows raw) []) /\
       length (nth i (rows df) []) = length (nth i (rows raw) [])).
Proof.
  intros Hc H.
  destruct (disk w path) as [e | raw] eqn:Hd.
  { rewrite (load_dataset_fail _ _ _ Hc Hd) in H. discriminate. }
  rewrite (load_dataset_miss _ _ _ Hc Hd) in H. injection H as <- _.
  exists raw. split; [reflexivity |].
  pose proof (normalize_total_dtype raw) as Hdt.
  unfold normalize in *.
  remember (map (fun c => Py.upper (Py.strip c)) (columns raw)) as cols eqn:Ec.
  clear Ec.
  destruct (Pd.has_column "TOTAL" (mkFrame cols (rows raw))) eqn:Ht.
  - unfold Pd.to_numeric_fillna in *.
    destruct (Pd.int64_column "TOTAL" (mkFrame cols (rows raw))) eqn:Hi.
    + cbn [columns rows]. repeat split; auto.
    + unfold Pd.map_column in *. cbn [columns rows] in *.
      destruct (Pd.index_of "TOTAL" cols) as [k |] eqn:Hk.
      * cbn [columns rows] in *. split; [reflexivity |].
        split; [apply length_map |]. split.
        { intros [Hx | Hx].
          - unfold Pd.has_column in Hx, Ht. cbn [columns] in Hx, Ht. congruence.
          - congruence. }
        split; [exact Hdt |].
        intros i name Hn. unfold Pd.get. cbn [columns].
        assert (Hrow : nth i (map (Pd.update_nth k Pd.as_float) (rows raw)) [] =
                       Pd.update_nth k Pd.as_float (nth i (rows raw) [])).
        { apply nth_map_nil. now destruct k. }
        rewrite Hrow, update_nth_length. split; [| reflexivity].
        destruct (Pd.index_of name cols) as [j |] eqn:Hj; [| reflexivity].
        apply nth_update_nth_other.
        intros E. subst j.
        apply (index_of_neq "TOTAL" name cols k k); auto.
      * apply index_of_has_column in Hk. unfold Pd.has_column in Ht.
        cbn [columns] in Ht. congruence.
  - cbn [columns rows] in *. repeat split; auto.
Qed.

Lemma loaded_table_shape_witness :
  exists raw,
    disk mundo_A DATA_PATH = inr raw /\
    columns tabela_A = map (fun c => Py.upper (Py.strip c)) (columns raw) /\
    rows tabela_A = rows raw.
Proof.
  destruct (loaded_table_shape mundo_A DATA_PATH tabela_A mundo_A_carregado
              eq_refl eq_refl) as [raw [H1 [H2 [_ [H3 _]]]]].
  exists raw. split; [exact H1 |]. split; [exact H2 |].
  apply H3. right. rewrite H2.
  vm_compute in H1. injection H1 as <-. reflexivity.
Defined.

(** ** Textual criteria *)

Lemma upper_app s t : Py.upper (s ++ t) = Py.upper s ++ Py.upper t.
Proof.
  induction s as [| c s IH]; simpl; [reflexivity |].
  rewrite IH. symmetry. apply ReFacts.append_assoc.
Qed.



Lemma parse_plain_prefix p s :
  Re.plain p = true ->
  forall done cur st,
    Re.parse (p ++ s) done cur st =
    Re.parse s done (rev (Re.lits p) ++ cur)
      (match p with EmptyString => st | _ => Re.Atom end).
Proof.
  induction p as [| c t IH]; simpl; intros Hp done cur st.
  - reflexivity.
  - apply andb_true_iff in Hp. destruct Hp as [Hc Ht].
    unfold Re.plain_char in Hc. simpl in Hc. apply negb_true_iff in Hc.
    repeat (apply orb_false_iff in Hc; destruct Hc as [?E Hc]).
    rewrite E, E0, E1, E2, E3, E4, E5, E6, E7, E8, E9, E10. simpl.
    rewrite IH by exact Ht. unfold Re.lits. simpl. rewrite <- app_assoc. simpl.
    destruct t; reflexivity.
Qed.

(** X4. Values that are not well-formed patterns make the filter raise
    [re.error] as soon as the column exists, whatever the rows of the
    table: a value that begins with [*], [+] or [?], and a value in
    which plain text is followed by a closing parenthesis. *)
Theorem malformed_value_raises frame coluna :
  Pd.has_column (Py.upper coluna) frame = true ->
  (forall c resto, In c ["*"; "+"; "?"]%char ->
     filtrar_coluna_texto frame coluna (String c resto) = Raise re_error) /\
  (forall p resto, Re.plain p = true ->
     filtrar_coluna_texto frame coluna (p ++ ")" ++ resto) = Raise re_error).
Proof.
  intros Hc. split.
  - intros c resto Hin. unfold filtrar_coluna_texto, str_contains. rewrite Hc.
    simpl in Hin. destruct Hin as [<- | [<- | [<- | []]]]; reflexivity.
  - intros p resto Hp. unfold filtrar_coluna_texto, str_contains. rewrite Hc.
    cbn [negb]. rewrite upper_app. unfold Re.compile.
    rewrite (parse_plain_prefix _ _ (PlainPatterns.upper_plain _ Hp)).
    reflexivity.
Qed.

Lemma malformed_value_raises_witness :
  filtrar_coluna_texto tabela_calibres "calibre_arma" "+p" = Raise re_error /\
  filtrar_coluna_texto tabela_calibres "calibre_arma" ("9mm" ++ ")" ++ " luger") =
    Raise re_error.
Proof.
  destruct (malformed_value_raises tabela_calibres "calibre_arma" eq_refl)
    as [H1 H2].
  split.
  - apply H1. simpl. auto.
  - apply H2. reflexivity.
Defined.

(** ** The working set *)

Lemma filter_filter {A : Type} (p r : A -> bool) (l : list A) :
  filter r (filter p l) = filter (fun x => (p x && r x)%bool) l.
Proof.
  induction l as [| x l IH]; simpl; [reflexivity |].
  destruct (p x) eqn:Hp; simpl; [destruct (r x) |]; now rewrite IH.
Qed.

(** A list of criteria is one selection of rows, by the conjunction of
    the tests. *)
Lemma aplicar_todos_testes l :
  forall f, aplicar_todos l f = (p <- testes (columns f) l ;; Ok (Pd.select p f)).
Proof.
  induction l as [| c l IH]; intros f; simpl.
  - now rewrite select_all.
  - rewrite aplicar_teste.
    destruct (teste (columns f) c) as [p | e |]; simpl; try reflexivity.
    rewrite IH. cbn [Pd.select columns].
    destruct (testes (columns f) l) as [r | e |]; simpl; try reflexivity.
    unfold Pd.select. cbn [columns rows]. now rewrite filter_filter.
Qed.

Lemma filter_idem {A : Type} (p : A -> bool) (l : list A) :
  filter p (filter p l) = filter p l.
Proof.
  rewrite filter_filter. apply filter_ext. intros x. now destruct (p x).
Qed.

Lemma filter_length_le {A : Type} (p : A -> bool) (l : list A) :
  (length (filter p l) <= length l)%nat.
Proof.
  induction l as [| x l IH]; simpl; [lia |]. destruct (p x); simpl; lia.
Qed.

(** X5. Filtering is idempotent, and it only selects: the working set
    has the columns of the table, its rows are rows of the table in
    their original order, and the same criteria applied to the working
    set give the working set back. *)
Theorem working_set_is_stable q df ws :
  filtrar q df = Ok ws ->
  columns ws = columns df /\
  (exists p, rows ws = filter p (rows df)) /\
  (length (rows ws) <= length (rows df))%nat /\
  filtrar q ws = Ok ws.
Proof.
  intros H. rewrite filtrar_criterios in *.
  rewrite aplicar_todos_testes in H.
  destruct (testes (columns df) (criterios q)) as [p | e |] eqn:Ht; try discriminate.
  simpl in H. injection H as <-.
  split; [reflexivity |]. split; [exists p; reflexivity |].
  split; [apply filter_length_le |].
  rewrite aplicar_todos_testes. cbn [Pd.select columns]. rewrite Ht. simpl.
  unfold Pd.select. cbn [columns rows]. now rewrite filter_idem.
Qed.

Lemma working_set_is_stable_witness :
  filtrar (com_campo Uf (Some "ba") consulta_padrao)
    (mkFrame ["UF"; "TOTAL"] [ [CStr "BA"; CInt 10]; [CStr "BA"; CInt 5] ]) =
  Ok (mkFrame ["UF"; "TOTAL"] [ [CStr "BA"; CInt 10]; [CStr "BA"; CInt 5] ]).
Proof.
  apply (working_set_is_stable (com_campo Uf (Some "ba") consulta_padrao) tabela_A).
  reflexivity.
Defined.

Lemma texto_None col : texto None col = [].
Proof. reflexivity. Qed.

Lemma criterios_com_campo c v q :
  Permutation (criterios (com_campo c v q))
              (criterios (com_campo c None q) ++ texto v (coluna_de c)).
Proof.
  unfold criterios.
  destruct c; cbn -[texto igual app]; rewrite texto_None; cbn [app];
    rewrite <- !app_assoc;
    repeat apply Permutation_app_head;
    (etransitivity; [apply Permutation_app_comm |]);
    rewrite <- !app_assoc; apply Permutation_refl.
Qed.

(** X6. A textual criterion can only narrow the result: if the query
    with the criterion returns a working set, the query without it
    returns one too, with the same columns, and the first is a selection
    of the rows of the second. *)
Theorem textual_criterion_narrows df q c v ws :
  filtrar (com_campo c v q) df = Ok ws ->
  exists ws',
    filtrar (com_campo c None q) df = Ok ws' /\
    columns ws = columns ws' /\
    (exists p, rows ws = filter p (rows ws')) /\
    (length (rows ws) <= length (rows ws'))%nat.
Proof.
  intros H. rewrite filtrar_criterios in H.
  pose proof (aplicar_todos_perm _ _ (criterios_com_campo c v q) df) as HP.
  rewrite H, aplicar_todos_app in HP.
  rewrite filtrar_criterios.
  destruct (aplicar_todos (criterios (com_campo c None q)) df) as [ws' | e |];
    simpl in HP; try contradiction.
  exists ws'. split; [reflexivity |].
  rewrite aplicar_todos_testes in HP.
  destruct (testes (columns ws') (texto v (coluna_de c))) as [p | e |];
    simpl in HP; try contradiction.
  subst ws. split; [reflexivity |]. split; [exists p; reflexivity |].
  apply filter_length_le.
Qed.

Lemma textual_criterion_narrows_witness :
  exists ws',
    filtrar (com_campo Sexo None (com_campo Uf (Some "ba") consulta_padrao)) tabela_B =
      Ok ws' /\
    columns (mkFrame ["UF"; "SEXO"; "ANO_EMISSAO"; "TOTAL"]
               [ [CStr "BA"; CStr "F"; CInt 2025; CInt 5] ]) = columns ws' /\
    (exists p, rows (mkFrame ["UF"; "SEXO"; "ANO_EMISSAO"; "TOTAL"]
                       [ [CStr "BA"; CStr "F"; CInt 2025; CInt 5] ]) =
               filter p (rows ws')) /\
    (length (rows (mkFrame ["UF"; "SEXO"; "ANO_EMISSAO"; "TOTAL"]
                     [ [CStr "BA"; CStr "F"; CInt 2025; CInt 5] ])) <=
     length (rows ws'))%nat.
Proof.
  apply (textual_criterion_narrows tabela_B
           (com_campo Uf (Some "ba") consulta_padrao) Sexo (Some "f")).
  reflexivity.
Defined.

Lemma se_igual_comm a b ca cb f :
  se_igual a ca (se_igual b cb f) = se_igual b cb (se_igual a ca f).
Proof.
  destruct a as [n |], b as [m |]; simpl; try reflexivity.
  unfold filtrar_igual, Pd.select, Pd.has_column, Pd.get.
  destruct (existsb (String.eqb ca) (columns f)) eqn:Ha,
           (existsb (String.eqb cb) (columns f)) eqn:Hb;
    cbn [columns rows]; rewrite ?Ha, ?Hb; cbn [columns rows]; try reflexivity.
  f_equal. apply filter_comm.
Qed.

(** X7. The year criterion keeps, among the rows that the other criteria
    select, exactly those whose ANO_EMISSAO is the integer asked for (a
    year stored as text, or missing, never matches), and does nothing
    when the table has no such column; the month criterion does the same
    on MES_MISSAO.  Whether the other criteria raise does not depend on
    them. *)
Theorem year_and_month_criteria df q n :
  filtrar (com_ano (Some n) q) df =
    (ws <- filtrar (com_ano None q) df ;;
     Ok (if Pd.has_column "ANO_EMISSAO" df
         then Pd.select (fun row => match Pd.get "ANO_EMISSAO" df row with
                                    | CInt z => Z.eqb z n
                                    | _ => false
                                    end) ws
         else ws)) /\
  filtrar (com_mes (Some n) q) df =
    (ws <- filtrar (com_mes None q) df ;;
     Ok (if Pd.has_column "MES_MISSAO" df
         then Pd.select (fun row => match Pd.get "MES_MISSAO" df row with
                                    | CInt z => Z.eqb z n
                                    | _ => false
                                    end) ws
         else ws)).
Proof.
  assert (T : forall q0 f,
            filtrar q0 f =
            (f1 <- aplicar_todos
                     (texto (uf q0) "UF" ++ texto (municipio q0) "MUNICIPIO" ++
                      texto (sexo q0) "SEXO" ++ texto (especie_arma q0) "ESPECIE_ARMA" ++
                      texto (marca_arma q0) "MARCA_ARMA" ++
                      texto (calibre_arma q0) "CALIBRE_ARMA" ++
                      texto (status q0) "STATUS" ++ texto (tipo q0) "TIPO" ++
                      texto (abrangencia q0) "ABRANGENCIA") f ;;
             Ok (se_igual (mes_missao q0) "MES_MISSAO"
                   (se_igual (ano_emissao q0) "ANO_EMISSAO" f1)))).
  { intros q0 f. rewrite filtrar_criterios. unfold criterios.
    rewrite !app_assoc. rewrite aplicar_todos_app. rewrite aplicar_todos_app.
    rewrite <- !app_assoc.
    destruct (aplicar_todos _ f) as [f1 | e |]; simpl; try reflexivity.
    rewrite <- se_igual_aplicar. simpl. now rewrite <- se_igual_aplicar. }
  assert (C : forall v col g, columns (se_igual v col g) = columns g).
  { intros v col g. destruct v as [m |]; simpl; [| reflexivity].
    destruct (Pd.has_column col g); reflexivity. }
  assert (S : forall col m g f,
            columns g = columns f ->
            se_igual (Some m) col g =
            (if Pd.has_column col f
             then Pd.select (fun row => match Pd.get col f row with
                                        | CInt z => Z.eqb z m
                                        | _ => false
                                        end) g
             else g)).
  { intros col m g f Hc. unfold se_igual, filtrar_igual, Pd.has_column, Pd.get.
    rewrite Hc. reflexivity. }
  split.
  - rewrite !T. cbn [com_ano uf municipio sexo especie_arma marca_arma calibre_arma
                      status tipo abrangencia ano_emissao mes_missao].
    destruct (aplicar_todos _ df) as [f1 | e |] eqn:Hl; cbn [bind]; try reflexivity.
    f_equal. change (se_igual None "ANO_EMISSAO" f1) with f1.
    rewrite se_igual_comm. apply S.
    rewrite C. apply (aplicar_todos_columns _ _ _ Hl).
  - rewrite !T. cbn [com_mes uf municipio sexo especie_arma marca_arma calibre_arma
                      status tipo abrangencia ano_emissao mes_missao].
    destruct (aplicar_todos _ df) as [f1 | e |] eqn:Hl; cbn [bind]; try reflexivity.
    f_equal.
    change (se_igual None "MES_MISSAO" (se_igual (ano_emissao q) "ANO_EMISSAO" f1))
      with (se_igual (ano_emissao q) "ANO_EMISSAO" f1).
    apply S.
    rewrite C. apply (aplicar_todos_columns _ _ _ Hl).
Qed.

(** ** The table of groups *)

Lemma soma_cons x g : soma_totais (x :: g) = snd x + soma_totais g.
Proof. reflexivity. Qed.

Lemma soma_acumular_mod k v g :
  Pd.wrap64 (soma_totais (Pd.acumular k v g)) = Pd.wrap64 (soma_totais g + v).
Proof.
  induction g as [| [k0 t] rest IH]; cbn [Pd.acumular].
  - rewrite !soma_cons. cbn [snd]. unfold Pd.add64, soma_totais. cbn [map fold_right].
    rewrite Int64.wrap64_add_l. f_equal. lia.
  - destruct (Pd.key_eqb k k0); rewrite !soma_cons; cbn [snd].
    + unfold Pd.add64. rewrite Int64.wrap64_add_l. f_equal. lia.
    + rewrite <- Int64.wrap64_add_r, IH, Int64.wrap64_add_r. f_equal. lia.
Qed.

Lemma soma_fold_mod col weight f rs :
  forall g,
    Pd.wrap64 (soma_totais (fold_left (Pd.step col weight f) rs g)) =
    Pd.wrap64 (soma_totais g +
               fold_right Z.add 0 (map weight (com_chave col f rs))).
Proof.
  induction rs as [| row rs IH]; intros g; cbn [fold_left].
  - unfold com_chave. cbn. f_equal. lia.
  - rewrite IH. unfold Pd.step, com_chave. cbn [filter].
    destruct (Pd.get col f row) as [s | z |]; cbn [Pd.key_eqb negb map fold_right].
    + rewrite <- Int64.wrap64_add_l, soma_acumular_mod, Int64.wrap64_add_l.
      f_equal. lia.
    + rewrite <- Int64.wrap64_add_l, soma_acumular_mod, Int64.wrap64_add_l.
      f_equal. lia.
    + reflexivity.
Qed.

Lemma soma_nonneg g : (forall x, In x g -> 0 <= snd x) -> 0 <= soma_totais g.
Proof.
  induction g as [| x g IH]; intros H; [unfold soma_totais; simpl; lia |].
  rewrite soma_cons. specialize (H x (or_introl eq_refl)) as Hx.
  assert (0 <= soma_totais g) by (apply IH; intros y Hy; apply H; now right).
  lia.
Qed.

Lemma add64_exact a b : 0 <= a -> 0 <= b -> a + b < 2 ^ 63 -> Pd.add64 a b = a + b.
Proof.
  intros Ha Hb Hs. unfold Pd.add64. apply Int64.wrap64_small.
  unfold Pd.int64. apply andb_true_iff.
  split; [apply Z.leb_le | apply Z.ltb_lt]; lia.
Qed.

(** While the totals stay below 2^63 no sum wraps. *)
Lemma soma_acumular_exact k v g :
  (forall x, In x g -> 0 <= snd x) ->
  0 <= v ->
  soma_totais g + v < 2 ^ 63 ->
  soma_totais (Pd.acumular k v g) = soma_totais g + v /\
  (forall x, In x (Pd.acumular k v g) -> 0 <= snd x).
Proof.
  induction g as [| [k0 t] rest IH]; intros Hg Hv Hs; cbn [Pd.acumular].
  - unfold soma_totais in *. cbn [map fold_right snd] in *.
    rewrite add64_exact by lia. split; [lia |].
    intros x [<- | []]. cbn. lia.
  - assert (Ht : 0 <= t) by (apply (Hg (k0, t)); now left).
    assert (Hr : forall x, In x rest -> 0 <= snd x)
      by (intros x Hx; apply Hg; now right).
    pose proof (soma_nonneg rest Hr) as Hn.
    rewrite soma_cons in Hs. cbn [snd] in Hs.
    destruct (Pd.key_eqb k k0).
    + rewrite !soma_cons. cbn [snd]. rewrite add64_exact by lia. split; [lia |].
      intros x [<- | Hx]; [cbn; lia | now apply Hr].
    + destruct (IH Hr Hv ltac:(lia)) as [E Hp].
      rewrite !soma_cons, E. cbn [snd]. split; [lia |].
      intros x [<- | Hx]; [exact Ht | now apply Hp].
Qed.

Lemma soma_chave_le col weight f rs :
  (forall row, In row rs -> 0 <= weight row) ->
  0 <= fold_right Z.add 0 (map weight (com_chave col f rs)) <=
       fold_right Z.add 0 (map weight rs).
Proof.
  unfold com_chave. induction rs as [| row rs IH]; intros H; cbn; [lia |].
  assert (Hrow : 0 <= weight row) by (apply H; now left).
  assert (Hrs : forall r, In r rs -> 0 <= weight r) by (intros r Hr; apply H; now right).
  specialize (IH Hrs).
  destruct (negb (Pd.key_eqb (Pd.get col f row) CNaN)); cbn; lia.
Qed.

Lemma soma_fold_exact col weight f rs :
  forall g,
    (forall x, In x g -> 0 <= snd x) ->
    (forall row, In row rs -> 0 <= weight row) ->
    soma_totais g + fold_right Z.add 0 (map weight (com_chave col f rs)) < 2 ^ 63 ->
    soma_totais (fold_left (Pd.step col weight f) rs g) =
    soma_totais g + fold_right Z.add 0 (map weight (com_chave col f rs)).
Proof.
  induction rs as [| row rs IH]; intros g Hg Hw Hs; cbn [fold_left].
  - unfold com_chave. cbn. lia.
  - assert (Hrow : 0 <= weight row) by (apply Hw; now left).
    assert (Hrs : forall r, In r rs -> 0 <= weight r)
      by (intros r Hr; apply Hw; now right).
    pose proof (soma_chave_le col weight f rs Hrs) as Hle.
    assert (Es : Pd.step col weight f g row =
                 match Pd.get col f row with
                 | CNaN => g
                 | k => Pd.acumular k (weight row) g
                 end) by reflexivity.
    rewrite Es. clear Es.
    unfold com_chave in Hs |- *. cbn [filter] in Hs |- *.
    fold (com_chave col f rs) in Hs, Hle |- *.
    destruct (Pd.get col f row) as [s | z |];
      cbn [Pd.key_eqb negb map fold_right] in Hs |- *.
    + destruct (soma_acumular_exact (CStr s) (weight row) g Hg Hrow ltac:(lia))
        as [E Hp].
      rewrite (IH _ Hp Hrs) by (rewrite E; lia). rewrite E. lia.
    + destruct (soma_acumular_exact (CInt z) (weight row) g Hg Hrow ltac:(lia))
        as [E Hp].
      rewrite (IH _ Hp Hrs) by (rewrite E; lia). rewrite E. lia.
    + now apply IH.
Qed.

Lemma soma_perm l l' : Permutation l l' -> soma_totais l = soma_totais l'.
Proof.
  unfold soma_totais. induction 1; simpl; lia.
Qed.

Lemma soma_sem_ausentes col ws :
  (forall row, In row (rows ws) -> Pd.get col ws row <> CNaN) ->
  com_chave col ws (rows ws) = rows ws.
Proof.
  unfold com_chave. intros Hall.
  induction (rows ws) as [| row rs IH]; cbn [filter]; [reflexivity |].
  destruct (Pd.key_eqb (Pd.get col ws row) CNaN) eqn:Ek; cbn [negb].
  - apply Groups.key_eqb_spec in Ek. exfalso. apply (Hall row); [now left | exact Ek].
  - f_equal. apply IH. intros r Hr. apply Hall. now right.
Qed.

Lemma soma_uns (rs : list (list cell)) :
  fold_right Z.add 0 (map (fun _ => 1) rs) = Z.of_nat (length rs).
Proof.
  induction rs as [| row rs IH]; [reflexivity |].
  cbn [length map fold_right]. rewrite IH. lia.
Qed.

(** The grand total, when no sum wraps. *)
Lemma total_de_peso ws :
  - 2 ^ 63 <= fold_right Z.add 0 (map (peso ws) (rows ws)) < 2 ^ 63 ->
  total_de ws = fold_right Z.add 0 (map (peso ws) (rows ws)).
Proof.
  unfold total_de, peso, Pd.len. intros Hr.
  destruct (Pd.has_column "TOTAL" ws).
  - unfold Pd.column_sum.
    rewrite (Int64.fold_add64 (fun row => Pd.cell_num (Pd.get "TOTAL" ws row))).
    destruct (rows ws) as [| r rs]; [reflexivity |].
    apply Int64.wrap64_small. unfold Pd.int64. apply andb_true_iff.
    split; [apply Z.leb_le | apply Z.ltb_lt]; lia.
  - now rewrite soma_uns.
Qed.

(** X8. The totals of the groups and the contribution of the rows that
    have a value in the grouping column are the same number of int64
    (rows whose value is missing are in no group).  When what the rows
    contribute is never negative and adds up to less than 2^63, no sum
    wraps: the totals of the groups add up to the contribution of the
    rows that have a value, and to the grand total of the answer when no
    value is missing. *)
Theorem groups_add_up col ws tabela :
  agrupar col ws = Ok tabela ->
  Pd.wrap64 (soma_totais tabela) =
    Pd.wrap64 (fold_right Z.add 0 (map (peso ws) (com_chave col ws (rows ws)))) /\
  ((forall row, In row (rows ws) -> 0 <= peso ws row) ->
   fold_right Z.add 0 (map (peso ws) (rows ws)) < 2 ^ 63 ->
   soma_totais tabela =
     fold_right Z.add 0 (map (peso ws) (com_chave col ws (rows ws))) /\
   ((forall row, In row (rows ws) -> Pd.get col ws row <> CNaN) ->
    soma_totais tabela = total_de ws)).
Proof.
  intros H. apply agrupar_groupby in H. subst tabela.
  assert (P : forall g, soma_totais (Pd.sort_values_desc (Pd.sort_keys g)) = soma_totais g).
  { intros g. rewrite <- (soma_perm _ _ (sort_values_desc_perm _)).
    now rewrite <- (soma_perm _ _ (Groups.sort_keys_perm _)). }
  unfold Pd.groupby. rewrite P. split.
  { rewrite soma_fold_mod. reflexivity. }
  intros Hpos Hlt.
  pose proof (soma_chave_le col (peso ws) ws (rows ws) Hpos) as Hle.
  assert (E : soma_totais (fold_left (Pd.step col (peso ws) ws) (rows ws) []) =
              fold_right Z.add 0 (map (peso ws) (com_chave col ws (rows ws)))).
  { rewrite soma_fold_exact; try assumption.
    - reflexivity.
    - intros x [].
    - unfold soma_totais at 1. cbn [map fold_right]. lia. }
  split; [exact E |].
  intros Hall. rewrite E, (soma_sem_ausentes _ _ Hall), total_de_peso; [reflexivity |].
  rewrite (soma_sem_ausentes _ _ Hall) in Hle. lia.
Qed.

Lemma groups_add_up_witness :
  soma_totais [(CStr "BA", 15); (CStr "SP", 7)] = total_de tabela_A.
Proof.
  destruct (groups_add_up "UF" tabela_A [(CStr "BA", 15); (CStr "SP", 7)] eq_refl)
    as [_ H].
  apply H.
  - intros row Hin. simpl in Hin.
    destruct Hin as [<- | [<- | [<- | []]]]; vm_compute; discriminate.
  - vm_compute. reflexivity.
  - intros row Hin. simpl in Hin.
    destruct Hin as [<- | [<- | [<- | []]]]; discriminate.
Defined.

Lemma desc_trans : Relations_1.Transitive desc.
Proof. intros x y z. unfold desc. lia. Qed.

Lemma strongly_sorted_app (l1 l2 : list (cell * Z)) :
  StronglySorted desc (l1 ++ l2) ->
  forall x y, In x l1 -> In y l2 -> snd y <= snd x.
Proof.
  induction l1 as [| a l1 IH]; simpl; intros Hs x y Hx Hy; [contradiction |].
  inversion Hs as [| a' l' Hs' Hall]; subst.
  destruct Hx as [<- | Hx].
  - rewrite Forall_forall in Hall. apply (Hall y). apply in_or_app. now right.
  - now apply IH.
Qed.

Lemma firstn_In_inv {A : Type} n : forall (l : list A) x, In x (firstn n l) -> In x l.
Proof.
  induction n as [| n IH]; intros l x H; simpl in H; [contradiction |].
  destruct l as [| y l]; [contradiction |].
  destruct H as [<- | H]; [now left | right; now apply IH].
Qed.

Lemma firstn_NoDup {A : Type} n : forall l : list A, NoDup l -> NoDup (firstn n l).
Proof.
  induction n as [| n IH]; intros l Hnd; simpl; [constructor |].
  destruct l as [| x l]; [constructor |].
  inversion Hnd as [| ? ? Hnot Hrest]; subst. constructor.
  - intros Hin. apply Hnot. revert Hin. apply firstn_In_inv.
  - now apply IH.
Qed.

Lemma filtrar_select q df ws :
  filtrar q df = Ok ws -> exists p, ws = Pd.select p df.
Proof.
  rewrite filtrar_criterios, aplicar_todos_testes. intros H.
  destruct (testes (columns df) (criterios q)) as [p | e |]; try discriminate.
  exists p. cbn [bind] in H. now injection H as <-.
Qed.

(** Selecting rows keeps the kind of the values of a column. *)
Lemma chave_uniforme_filtrar q df ws col :
  filtrar q df = Ok ws -> chave_uniforme col df = true -> chave_uniforme col ws = true.
Proof.
  intros Hf Hu. destruct (filtrar_select _ _ _ Hf) as [p ->].
  unfold chave_uniforme, Pd.int64_column, Pd.object_column, Pd.get, Pd.select in *.
  cbn [columns rows]. apply orb_true_iff in Hu. apply orb_true_iff.
  destruct Hu as [Hu | Hu]; [left | right]; now apply forallb_filter.
Qed.

(** X9. On a table whose TOTAL column, if there is one, is int64 and
    whose grouping column holds int64 values only or no integer at all,
    a grouped query with a limit [n >= 0] on an existing column other
    than TOTAL, whose groups have totals that differ from one another,
    returns a ranking: it has [n] lines, or as many as there are groups
    if these are fewer; no value is listed twice; the totals go down the
    list; every group left out has a total no larger than any group
    listed; and each line carries the int64 sum over the rows of its
    value.  With the TOTAL column itself as the grouping column the
    query raises [ValueError]. *)
Theorem ranking_lists_the_largest_groups df q ws g n :
  filtrar q df = Ok ws ->
  Pd.empty ws = false ->
  Py.truthy (agrupar_por q) = Some g ->
  Pd.has_column (Py.upper g) ws = true ->
  top_n q = Some n ->
  0 <= n ->
  total_int64 df = true ->
  chave_uniforme (Py.upper g) df = true ->
  NoDup (map snd (Pd.groupby (Py.upper g) (peso ws) ws)) ->
  if (Pd.has_column "TOTAL" ws && String.eqb (Py.upper g) "TOTAL")%bool
  then consultar df q = Raise ValueError
  else
    exists tabela ranking,
      agrupar (Py.upper g) ws = Ok tabela /\
      ranking = firstn (Z.to_nat n) tabela /\
      consultar df q = Ok (msg_ranking (total_de ws) (Py.upper g) ranking) /\
      length ranking = Nat.min (Z.to_nat n) (length tabela) /\
      NoDup (map fst ranking) /\
      Sorted desc ranking /\
      (forall x y, In x ranking -> In y (skipn (Z.to_nat n) tabela) ->
                   snd y <= snd x) /\
      (forall k t, In (k, t) ranking ->
                   k <> CNaN /\
                   t = sum_of_key (Py.upper g) (peso ws) ws k (rows ws)).
Proof.
  intros Hf He Hg Hc Ht Hn Hti Hku _.
  destruct (Pd.has_column "TOTAL" ws && String.eqb (Py.upper g) "TOTAL")%bool eqn:Hb.
  - apply andb_true_iff in Hb. destruct Hb as [H1 H2].
    unfold consultar. rewrite Hf. cbn [bind].
    unfold responder. rewrite He, Hg, Hc. cbn [negb].
    unfold agrupar. rewrite H1, H2. reflexivity.
  - destruct (agrupar_returns (Py.upper g) ws) as [tabela Ha].
    { apply andb_false_iff in Hb. destruct Hb as [Hb | Hb]; [now left | right].
      now apply String.eqb_neq. }
    { exact (total_int64_filtrar _ _ _ Hf Hti). }
    { exact (chave_uniforme_filtrar _ _ _ _ Hf Hku). }
    exists tabela, (firstn (Z.to_nat n) tabela).
    split; [exact Ha |]. split; [reflexivity |].
    assert (Hs : Sorted desc tabela) by (eapply agrupar_sorted; exact Ha).
    split.
    { rewrite (consultar_ranking _ _ _ _ _ Hf He Hg Hc Ha), Ht.
      simpl. unfold Pd.head. destruct (Z.leb_spec 0 n); [reflexivity | lia]. }
    split; [apply length_firstn |].
    split.
    { rewrite <- firstn_map. apply firstn_NoDup.
      rewrite (agrupar_groupby _ _ _ Ha).
      apply (Permutation_NoDup (l := map fst (Pd.groupby (Py.upper g) (peso ws) ws))).
      - apply Permutation_map. apply sort_values_desc_perm.
      - apply Groups.groupby_keys. }
    split; [now apply firstn_sorted |].
    split.
    { apply strongly_sorted_app. rewrite firstn_skipn.
      apply Sorted_StronglySorted; [exact desc_trans | exact Hs]. }
    intros k t Hin. apply firstn_In_inv in Hin.
    apply (agrupar_spec _ _ _ k t Ha) in Hin. tauto.
Qed.

Lemma ranking_lists_the_largest_groups_witness :
  exists tabela ranking,
    agrupar (Py.upper "sexo") tabela_B = Ok tabela /\
    ranking = firstn (Z.to_nat 1) tabela /\
    consultar tabela_B (com_grupo (Some "sexo") (Some 1) consulta_padrao) =
      Ok (msg_ranking (total_de tabela_B) (Py.upper "sexo") ranking) /\
    length ranking = Nat.min (Z.to_nat 1) (length tabela) /\
    NoDup (map fst ranking) /\
    Sorted desc ranking /\
    (forall x y, In x ranking -> In y (skipn (Z.to_nat 1) tabela) ->
                 snd y <= snd x) /\
    (forall k t, In (k, t) ranking ->
                 k <> CNaN /\
                 t = sum_of_key (Py.upper "sexo") (peso tabela_B) tabela_B k
                       (rows tabela_B)).
Proof.
  apply (ranking_lists_the_largest_groups tabela_B
           (com_grupo (Some "sexo") (Some 1) consulta_padrao) tabela_B "sexo" 1);
    try reflexivity.
  - lia.
  - vm_compute. repeat constructor; simpl; intuition discriminate.
Defined.

Lemma upper_char_idem c : Py.upper (Py.upper_char c) = Py.upper_char c.
Proof.
  destruct c as [[] [] [] [] [] [] [] []]; vm_compute; reflexivity.
Qed.

Lemma upper_idem s : Py.upper (Py.upper s) = Py.upper s.
Proof.
  induction s as [| c s IH]; cbn [Py.upper]; [reflexivity |].
  rewrite upper_app, upper_char_idem, IH. reflexivity.
Qed.

Lemma upper_char_nonempty c : exists a r, Py.upper_char c = String a r.
Proof.
  destruct c as [[] [] [] [] [] [] [] []]; vm_compute; eexists; eexists; reflexivity.
Qed.

Lemma upper_nonempty c s : Py.upper (String c s) <> "".
Proof.
  cbn [Py.upper]. destruct (upper_char_nonempty c) as [a [r ->]]. discriminate.
Qed.

(** X10. The grouping column is looked up without regard to case: when
    the upper-cased name is a column of the table, asking for the name
    in any case gives the answer of asking for the upper-cased name. *)
Theorem grouping_column_ignores_case df q g n :
  Pd.has_column (Py.upper g) df = true ->
  consultar df (com_grupo (Some g) n q) =
  consultar df (com_grupo (Some (Py.upper g)) n q).
Proof.
  intros Hc. unfold consultar.
  assert (Ef : forall h, filtrar (com_grupo h n q) df = filtrar q df) by reflexivity.
  rewrite !Ef. destruct (filtrar q df) as [ws | e |] eqn:Hf; try reflexivity.
  cbn [bind]. unfold responder. destruct (Pd.empty ws); [reflexivity |].
  cbn [agrupar_por top_n com_grupo].
  destruct g as [| c g']; [reflexivity |].
  cbn [Py.truthy].
  remember (Py.upper (String c g')) as u eqn:Eu in *.
  assert (Hu : Py.upper u = u) by (subst u; apply upper_idem).
  destruct u as [| c' u'].
  { exfalso. symmetry in Eu. exact (upper_nonempty c g' Eu). }
  cbn [Py.truthy]. rewrite Hu.
  rewrite (has_column_columns _ _ _ (filtrar_columns _ _ _ Hf)), Hc.
  reflexivity.
Qed.

Lemma grouping_column_ignores_case_witness :
  consultar tabela_A (com_grupo (Some "Uf") (Some 5) consulta_padrao) =
  consultar tabela_A (com_grupo (Some (Py.upper "Uf")) (Some 5) consulta_padrao).
Proof.
  apply (grouping_column_ignores_case tabela_A consulta_padrao "Uf" (Some 5)).
  reflexivity.
Defined.

(** ** The entry point *)

(** X11. The first query loads the file, through [DATA_PATH], exactly
    once; whatever that query answers or raises, the table stays in the
    cache, and every later query is answered from it with the process
    state unchanged.  When the file cannot be read the query raises the
    loader's exception and nothing is cached. *)
Theorem queries_read_the_file_once q w :
  PORTES_DF w = None ->
  match disk w DATA_PATH with
  | inr raw =>
      exists w1,
        consultar_portes q w = (consultar (normalize raw) q, w1) /\
        PORTES_DF w1 = Some (normalize raw) /\
        reads w1 = DATA_PATH :: reads w /\
        forall q', consultar_portes q' w1 = (consultar (normalize raw) q', w1)
  | inl e =>
      exists w1,
        consultar_portes q w = (Raise e, w1) /\
        PORTES_DF w1 = None /\
        reads w1 = DATA_PATH :: reads w
  end.
Proof.
  intros Hc. destruct (disk w DATA_PATH) as [e | raw] eqn:Hd.
  - exists (mkWorld None (disk w) (DATA_PATH :: reads w)).
    unfold consultar_portes, bindM.
    rewrite (load_dataset_fail _ _ _ Hc Hd). repeat split.
  - exists (mkWorld (Some (normalize raw)) (disk w) (DATA_PATH :: reads w)).
    split.
    { unfold consultar_portes, bindM.
      rewrite (load_dataset_miss _ _ _ Hc Hd). reflexivity. }
    split; [reflexivity |]. split; [reflexivity |].
    intros q'. now apply consultar_portes_cached.
Qed.

Lemma queries_read_the_file_once_witness :
  exists w1,
    consultar_portes (com_campo Uf (Some "+") consulta_padrao) mundo_A =
      (consultar (normalize arquivo_A) (com_campo Uf (Some "+") consulta_padrao), w1) /\
    PORTES_DF w1 = Some (normalize arquivo_A) /\
    reads w1 = DATA_PATH :: reads mundo_A /\
    forall q', consultar_portes q' w1 = (consultar (normalize arquivo_A) q', w1).
Proof.
  apply (queries_read_the_file_once (com_campo Uf (Some "+") consulta_padrao) mundo_A).
  reflexivity.
Defined.

(** ** The interactive loop *)

Section Session.

Variable agente : Chat.Agent.

Lemma repl_cons linha resto w :
  Chat.repl agente (linha :: resto) w =
  match Py.strip linha with
  | EmptyString =>
      ((Chat.Prompt Chat.prompt :: fst (fst (Chat.repl agente resto w)),
        snd (fst (Chat.repl agente resto w))),
       snd (Chat.repl agente resto w))
  | p =>
      if Chat.palavra_de_saida p
      then (([Chat.Prompt Chat.prompt; Chat.Print Chat.msg_adeus], w), Chat.Retornou)
      else
        let r := Chat.repl agente resto (snd (Chat.perguntar agente p w)) in
        ((Chat.Prompt Chat.prompt ::
            (fst (Chat.perguntar agente p w) ++ fst (fst r))%list,
          snd (fst r)), snd r)
  end.
Proof.
  cbn [Chat.repl]. destruct (Py.strip linha) as [| a p].
  - destruct (Chat.repl agente resto w) as [[saida w1] fim]. reflexivity.
  - destruct (Chat.palavra_de_saida (String a p)); [reflexivity |].
    destruct (Chat.perguntar agente (String a p) w) as [evs w1].
    cbn [fst snd].
    destruct (Chat.repl agente resto w1) as [[saida w2] fim]. reflexivity.
Qed.

Lemma perguntar_spec p w :
  snd (Chat.perguntar agente p w) = snd (agente p w) /\
  saidas_do_agente (fst (Chat.perguntar agente p w)) = [fst (fst (agente p w))] /\
  n_prompts (fst (Chat.perguntar agente p w)) = O.
Proof.
  unfold Chat.perguntar.
  destruct (agente p w) as [[saida [e |]] w1]; repeat split.
Qed.

Lemma saidas_app a b :
  saidas_do_agente (a ++ b) = (saidas_do_agente a ++ saidas_do_agente b)%list.
Proof. unfold saidas_do_agente. apply flat_map_app. Qed.

Lemma n_prompts_app a b : n_prompts (a ++ b) = (n_prompts a + n_prompts b)%nat.
Proof. unfold n_prompts. now rewrite filter_app, length_app. Qed.

(** X12. What a session does is fixed by the lines typed.  The agent is
    asked the stripped, non-blank lines up to the first exit word, in
    that order and once each; an exception of the agent never ends the
    loop; the loop ends by a return if a line is an exit word and by
    [EOFError] when the input runs out first; and there is one prompt
    for each line read. *)
Theorem session_follows_the_input entrada :
  forall w,
    snd (fst (Chat.repl agente entrada w)) =
      estado_final agente (Chat.perguntas entrada) w /\
    saidas_do_agente (fst (fst (Chat.repl agente entrada w))) =
      respostas agente (Chat.perguntas entrada) w /\
    snd (Chat.repl agente entrada w) =
      (if Chat.tem_saida entrada then Chat.Retornou else Chat.LevantouEOF) /\
    n_prompts (fst (fst (Chat.repl agente entrada w))) =
      (Chat.linhas_lidas entrada + (if Chat.tem_saida entrada then 0 else 1))%nat.
Proof.
  induction entrada as [| linha resto IH]; intros w.
  - repeat split.
  - rewrite repl_cons. cbn [Chat.perguntas Chat.tem_saida Chat.linhas_lidas].
    destruct (Py.strip linha) as [| a p].
    + destruct (IH w) as [H1 [H2 [H3 H4]]]. cbn [fst snd].
      repeat split; try assumption.
      unfold n_prompts in *. cbn [filter length]. rewrite H4. reflexivity.
    + destruct (Chat.palavra_de_saida (String a p)) eqn:Hs.
      * repeat split.
      * cbn zeta. cbn [fst snd orb].
        destruct (perguntar_spec (String a p) w) as [P1 [P2 P3]].
        rewrite P1.
        destruct (IH (snd (agente (String a p) w))) as [H1 [H2 [H3 H4]]].
        repeat split.
        -- exact H1.
        -- change (Chat.Prompt Chat.prompt :: ?l)%list
             with ([Chat.Prompt Chat.prompt] ++ l)%list.
           rewrite !saidas_app, P2, H2. reflexivity.
        -- exact H3.
        -- change (Chat.Prompt Chat.prompt :: ?l)%list
             with ([Chat.Prompt Chat.prompt] ++ l)%list.
           rewrite !n_prompts_app, P3, H4. reflexivity.
Qed.

(** X13. Nothing after the first exit word matters: the session writes
    the farewell and returns, and the lines that follow are not read. *)
Theorem exit_word_ends_the_session antes linha depois depois' w :
  Py.strip linha <> "" ->
  Chat.palavra_de_saida (Py.strip linha) = true ->
  Chat.repl agente (antes ++ linha :: depois) w =
  Chat.repl agente (antes ++ linha :: depois') w /\
  snd (Chat.repl agente (antes ++ linha :: depois) w) = Chat.Retornou /\
  exists eventos,
    fst (fst (Chat.repl agente (antes ++ linha :: depois) w)) =
    (eventos ++ [Chat.Prompt Chat.prompt; Chat.Print Chat.msg_adeus])%list.
Proof.
  intros Hne Hs.
  assert (Hx : forall d w0,
            Chat.repl agente (linha :: d) w0 =
            (([Chat.Prompt Chat.prompt; Chat.Print Chat.msg_adeus], w0), Chat.Retornou)).
  { intros d w0. rewrite repl_cons. revert Hne Hs.
    destruct (Py.strip linha) as [| a p]; intros Hne Hs; [contradiction |].
    cbv zeta. rewrite Hs. reflexivity. }
  revert w.
  induction antes as [| l antes IH]; intros w.
  - cbn [app]. rewrite !Hx. repeat split. exists []. reflexivity.
  - cbn [app]. rewrite !repl_cons.
    destruct (Py.strip l) as [| a p].
    + destruct (IH w) as [H1 [H2 [evs H3]]]. rewrite <- H1.
      split; [reflexivity |]. split; [exact H2 |].
      cbn [fst snd]. rewrite H3. exists (Chat.Prompt Chat.prompt :: evs). reflexivity.
    + cbv zeta. destruct (Chat.palavra_de_saida (String a p)).
      * repeat split. exists []. reflexivity.
      *
        destruct (IH (snd (Chat.perguntar agente (String a p) w)))
          as [H1 [H2 [evs H3]]].
        rewrite <- H1. split; [reflexivity |]. split; [exact H2 |].
        cbn [fst snd]. rewrite H3.
        exists (Chat.Prompt Chat.prompt ::
                  fst (Chat.perguntar agente (String a p) w) ++ evs)%list.
        cbn [app]. now rewrite <- app_assoc.
Qed.

End Session.

Lemma exit_word_ends_the_session_witness :
  Chat.repl agente_uf (["ba"; "  SAIR  "; "sp"]) mundo_A_carregado =
  Chat.repl agente_uf (["ba"; "  SAIR  "]) mundo_A_carregado.
Proof.
  apply (exit_word_ends_the_session agente_uf ["ba"] "  SAIR  " ["sp"] []
           mundo_A_carregado).
  - discriminate.
  - reflexivity.
Defined.

Lemma load_dataset_in_fragment path w : fst (load_dataset path w) <> OutOfFragment.
Proof.
  unfold load_dataset, bindM, get_PORTES_DF, read_csv, set_PORTES_DF, ret.
  cbn beta iota. destruct (PORTES_DF w); cbn; [discriminate |].
  destruct (disk w path); cbn; discriminate.
Qed.

(** X14. [main] reaches the prompt only with the dataset loaded and the
    credential set.  Started with an empty cache: when the file is
    missing it prints one line and returns; another exception of the
    loader leaves [main] uncaught, with nothing printed; when the file
    loads but GOOGLE_API_KEY is unset or empty it prints two lines and
    returns.  In these cases no input is read and the agent is not
    called.  Otherwise the banner is printed and the loop runs with the
    table in the cache. *)
Theorem main_guards env agente entrada w :
  PORTES_DF w = None ->
  (disk w DATA_PATH = inl FileNotFoundError ->
   Chat.main env agente entrada w =
   (([Chat.Print Chat.msg_arquivo],
     mkWorld None (disk w) (DATA_PATH :: reads w)), Chat.Retornou)) /\
  (forall e, e <> FileNotFoundError -> disk w DATA_PATH = inl e ->
   Chat.main env agente entrada w =
   (([], mkWorld None (disk w) (DATA_PATH :: reads w)), Chat.Levantou e)) /\
  (forall raw, disk w DATA_PATH = inr raw ->
   Py.truthy (env "GOOGLE_API_KEY") = None ->
   Chat.main env agente entrada w =
   ((Chat.msgs_chave,
     mkWorld (Some (normalize raw)) (disk w) (DATA_PATH :: reads w)),
    Chat.Retornou)) /\
  (forall raw chave, disk w DATA_PATH = inr raw ->
   Py.truthy (env "GOOGLE_API_KEY") = Some chave ->
   Chat.main env agente entrada w =
   (((Chat.banner ++
      fst (fst (Chat.repl agente entrada
                  (mkWorld (Some (normalize raw)) (disk w) (DATA_PATH :: reads w)))))%list,
     snd (fst (Chat.repl agente entrada
                 (mkWorld (Some (normalize raw)) (disk w) (DATA_PATH :: reads w))))),
    snd (Chat.repl agente entrada
           (mkWorld (Some (normalize raw)) (disk w) (DATA_PATH :: reads w))))).
Proof.
  intros Hc. unfold Chat.main. repeat split.
  - intros Hd. rewrite (load_dataset_fail _ _ _ Hc Hd). reflexivity.
  - intros e He Hd. rewrite (load_dataset_fail _ _ _ Hc Hd).
    destruct e; try reflexivity. contradiction.
  - intros raw Hd Hk. rewrite (load_dataset_miss _ _ _ Hc Hd), Hk. reflexivity.
  - intros raw chave Hd Hk. rewrite (load_dataset_miss _ _ _ Hc Hd), Hk.
    destruct (Chat.repl agente entrada _) as [[saida w2] fim]. reflexivity.
Qed.

Lemma main_guards_witness :
  Chat.main env_vazio agente_uf ["ba"; "sair"] mundo_A =
  ((Chat.msgs_chave, mundo_A_carregado), Chat.Retornou).
Proof.
  destruct (main_guards env_vazio agente_uf ["ba"; "sair"] mundo_A eq_refl)
    as [_ [_ [H _]]].
  apply (H arquivo_A); reflexivity.
Defined.

(** A session from the file to the farewell: a question, a blank line, a
    question that makes the query raise, an exit word. *)
Example session_example :
  Chat.main env_com_chave agente_uf ["ba"; "   "; "+"; "Quit"; "sp"] mundo_A =
  (((Chat.banner ++
     [ Chat.Prompt Chat.prompt; Chat.Resposta (msg_resumo 15 2); Chat.Print "";
       Chat.Prompt Chat.prompt;
       Chat.Prompt Chat.prompt; Chat.Resposta "";
       Chat.Print (Chat.msg_erro_agente "falha na consulta");
       Chat.Prompt Chat.prompt; Chat.Print Chat.msg_adeus ])%list,
    mundo_A_carregado), Chat.Retornou).
Proof. reflexivity. Qed.

(** Input that ends without an exit word. *)
Example session_eof :
  snd (Chat.main env_com_chave agente_uf ["ba"] mundo_A) = Chat.LevantouEOF.
Proof. reflexivity. Qed.


